(** * easeTransfer: the session-aware in-memory relay hub

    A shallow embedding of the WebSocket hub of easeTransfer (the server
    variant with sessions, [sessions] and [deviceToSession]) and the
    properties of its specification that it has, or does not have.

    Conventions of the embedding.
    - A JavaScript [Map] is a [gmap]: keys are unique by construction.  The
      order in which [Map.forEach] visits entries (insertion order in
      JavaScript) is abstracted to the order of [map_to_list]; no theorem
      below depends on it (the scenario examples list the frames in the
      order of the model).
    - A [Buffer] is a [list byte]; a JavaScript string is a [string] of ASCII
      characters ([Buffer.toString] and [Buffer.write] are the identity on
      ASCII text, which is what UUIDs and session codes are).
    - Each connection owns one [deviceId] and one socket [ws], created
      together in the [connection] callback, so a socket is named by its
      device id.  A call [ws.send(x)] is recorded as the pair [(deviceId, x)];
      a handler returns the list of its calls, in program order.
    - What the handlers read from the outside world ([Date], [uuidv4],
      [Math.random], the [readyState] of sockets) is passed in an [env]. *)

From stdpp Require Import gmap strings list fin_maps.
From Stdlib Require Import ZArith NArith.
From Stdlib.Strings Require Import Ascii Byte.

(** ** JavaScript primitives *)

Module Js.

(** [s || dflt] for a field that is a string or missing: the empty string
    is falsy. *)
Definition or_default (s : option string) (dflt : string) : string :=
  match s with
  | Some EmptyString | None => dflt
  | Some s' => s'
  end.

(** [if (!s) return;] for a value that is a string or [undefined]. *)
Definition truthy (s : option string) : option string :=
  match s with
  | Some EmptyString => None
  | _ => s
  end.

(** [s.charAt(i)]: the empty string when [i] is out of range. *)
Definition charAt (s : string) (i : nat) : string :=
  match String.get i s with
  | Some c => String c EmptyString
  | None => EmptyString
  end.

(** A small letter becomes the capital; any other character is kept. *)
Definition upper_ascii (c : ascii) : ascii :=
  let n := nat_of_ascii c in
  if (97 <=? n) && (n <=? 122) then ascii_of_nat (n - 32) else c.

(** [s.toUpperCase()] on ASCII text. *)
Fixpoint toUpperCase (s : string) : string :=
  match s with
  | EmptyString => EmptyString
  | String c s' => String (upper_ascii c) (toUpperCase s')
  end.

(** A value of [Math.random()].  Every double in [0, 1) is an integer
    multiple of 2^-1074; [mant] is that integer. *)
Record float01 := Float01 {
  mant : N;
  mant_lt : (mant <? 2 ^ 1074)%N = true
}.

(** [Math.floor(r * k)], exact for the power of two the hub uses. *)
Definition floor_mul (r : float01) (k : nat) : nat :=
  N.to_nat (mant r * N.of_nat k / 2 ^ 1074).

(** [Math.ceil(a / b)] on lengths. *)
Definition ceil_div (a b : nat) : nat :=
  if a mod b =? 0 then a / b else S (a / b).

(** [buf.slice(start, end)]. *)
Definition slice {A} (start end_ : nat) (buf : list A) : list A :=
  take (end_ - start) (drop start buf).

End Js.

(** ** Data model *)

Module Device.
(** The [ws] field is the socket of the connection that owns [id]. *)
Record t := Make {
  id : string;
  name : string;
  type : string;
  connectedAt : Z
}.
End Device.

Module File.
(** [data] is [undefined] until [file_complete] assigns it. *)
Record t := Make {
  id : string;
  originalName : string;
  size : Z;
  mimetype : string;
  uploadedAt : Z;
  chunks : list (list byte);
  receivedSize : Z;
  uploaderId : string;
  data : option (list byte)
}.

(** [file.chunks.push(chunk); file.receivedSize += chunk.length;] *)
Definition push_chunk (chunk : list byte) (f : t) : t :=
  Make (id f) (originalName f) (size f) (mimetype f) (uploadedAt f)
       (chunks f ++ [chunk]) (receivedSize f + Z.of_nat (length chunk))
       (uploaderId f) (data f).

(** [file.data = Buffer.concat(file.chunks); file.chunks = [];] *)
Definition complete (f : t) : t :=
  Make (id f) (originalName f) (size f) (mimetype f) (uploadedAt f)
       [] (receivedSize f) (uploaderId f) (Some (concat (chunks f))).
End File.

Module Session.
Record t := Make {
  devices : gmap string Device.t;
  files : gmap string File.t;
  createdAt : Z
}.

Definition set_devices (d : gmap string Device.t) (s : t) : t :=
  Make d (files s) (createdAt s).

Definition set_files (f : gmap string File.t) (s : t) : t :=
  Make (devices s) f (createdAt s).
End Session.

Record stats_t := Stats { totalUsers : nat; totalSessions : nat }.

(** The module-level mutable state of the server. *)
Record hub := Hub {
  sessions : gmap string Session.t;
  deviceToSession : gmap string string;
  stats : stats_t
}.

Definition hub_init : hub := Hub ∅ ∅ (Stats 0 0).

Definition set_sessions (m : gmap string Session.t) (s : hub) : hub :=
  Hub m (deviceToSession s) (stats s).

(** ** Frames *)

(** The metadata object sent in [new_file] and [existing_files]. *)
Record file_meta := FileMeta {
  fm_id : string;
  fm_originalName : string;
  fm_size : Z;
  fm_mimetype : string;
  fm_uploadedAt : Z
}.

Definition meta_of (f : File.t) : file_meta :=
  FileMeta (File.id f) (File.originalName f) (File.size f)
           (File.mimetype f) (File.uploadedAt f).

(** Hub to client.  [upload_progress] also carries
    [progress = Math.round(received / total * 100)], a floating-point value
    computed from the two fields kept here. *)
Inductive frame :=
  | session_created (sessionCode deviceId : string) (connectedDevices : nat)
  | session_joined (sessionCode deviceId : string) (connectedDevices : nat)
  | session_error (error : string)
  | device_joined (id : string) (name type : option string) (totalDevices : nat)
  | device_left (deviceId : string) (totalDevices : nat)
  | existing_files (files : list file_meta)
  | new_file (file : file_meta)
  | file_removed (fileId : string)
  | file_start_ack (fileId fileName : string)
  | upload_progress (fileId : string) (received total : Z)
  | file_complete_ack (fileId : string)
  | file_download_start (fileId fileName : string) (fileSize : Z) (mimeType : string)
  | file_download_complete (fileId : string)
  | pong
  | binary (packet : list byte).

(** The [sessionCode] field of [join_session]: missing ([undefined] or
    [null], on which [?.] gives [undefined]), a string, or some other JSON
    value (a number, a boolean, an array or an object, on which
    [?.toUpperCase()] throws). *)
Inductive code_field :=
  | code_missing
  | code_string (s : string)
  | code_other.

(** Client to hub, after [JSON.parse]. *)
Inductive message :=
  | create_session (deviceName deviceType : option string)
  | join_session (sessionCode : code_field) (deviceName deviceType : option string)
  | file_start (fileName : string) (fileSize : Z) (mimeType : string)
  | file_complete (fileId : string)
  | request_file (fileId : string)
  | delete_file (fileId : string)
  | ping
  | unknown_type.

(** One [ws.send]: the socket (named by its device) and what is sent. *)
Definition send : Type := string * frame.

(** What a handler reads from outside the hub. *)
Record env := Env {
  ready : string → bool;          (* ws.readyState === WebSocket.OPEN *)
  now : Z;                        (* Date.now(), milliseconds *)
  uuidv4 : string;                (* the value uuidv4() returns *)
  random : nat → Js.float01       (* successive values of Math.random() *)
}.

(** ** The hub *)

(** The alphabet of [generateSessionCode]. *)
Definition chars : string := "ABCDEFGHJKLMNPQRSTUVWXYZ23456789".

(** The body of the [for] loop of [generateSessionCode], run [n] times from
    the [pos]-th value of [Math.random()]. *)
Fixpoint generateSessionCode_from (n : nat) (rnd : nat → Js.float01)
    (pos : nat) (code : string) : string :=
  match n with
  | 0 => code
  | S n' =>
      generateSessionCode_from n' rnd (S pos)
        (code +:+ Js.charAt chars (Js.floor_mul (rnd pos) (String.length chars)))
  end.

Definition generateSessionCode (rnd : nat → Js.float01) (pos : nat) : string :=
  generateSessionCode_from 6 rnd pos "".

(** [let sessionCode = generateSessionCode();
     while (sessions.has(sessionCode)) sessionCode = generateSessionCode();]
    Each attempt reads six values of [Math.random()].  [None]: the loop has
    not ended within [fuel] attempts. *)
Fixpoint mintSessionCode (fuel : nat) (rnd : nat → Js.float01) (pos : nat)
    (ss : gmap string Session.t) : option string :=
  match fuel with
  | 0 => None
  | S fuel' =>
      let sessionCode := generateSessionCode rnd pos in
      match ss !! sessionCode with
      | Some _ => mintSessionCode fuel' rnd (pos + 6) ss
      | None => Some sessionCode
      end
  end.

(** [session.devices.forEach] of [broadcastToSession]. *)
Definition broadcastToDevices (rdy : string → bool)
    (devs : gmap string Device.t) (msg : frame) (excludeId : option string)
    : list send :=
  omap (λ kv : string * Device.t,
          if bool_decide (Some kv.1 ≠ excludeId) && rdy kv.1
          then Some (kv.1, msg) else None)
       (map_to_list devs).

Definition broadcastToSession (rdy : string → bool)
    (ss : gmap string Session.t) (sessionCode : string) (msg : frame)
    (excludeId : option string) : list send :=
  match ss !! sessionCode with
  | None => []
  | Some session => broadcastToDevices rdy (Session.devices session) msg excludeId
  end.

(** The opening lines shared by the file handlers:
    [const sessionCode = deviceToSession.get(deviceId); if (!sessionCode) return;
     const session = sessions.get(sessionCode); if (!session) return;] *)
Definition in_session (s : hub) (deviceId : string)
    (k : string → Session.t → hub * list send) : hub * list send :=
  match Js.truthy (deviceToSession s !! deviceId) with
  | None => (s, [])
  | Some sessionCode =>
      match sessions s !! sessionCode with
      | None => (s, [])
      | Some session => k sessionCode session
      end
  end.

Definition new_device (e : env) (deviceId : string)
    (deviceName deviceType : option string) : Device.t :=
  Device.Make deviceId (Js.or_default deviceName "Unknown Device")
              (Js.or_default deviceType "unknown") (now e).

Definition chunkSize : nat := 64 * 1024.

(** [Buffer.alloc(36)] then [header.write(id)]. *)
Definition header (id : string) : list byte :=
  take 36 (String.list_byte_of_string id ++ replicate 36 x00).

(** The packets of the download loop, for a chunk size [cs]. *)
Definition download_packets_sized (cs : nat) (id : string) (buf : list byte)
    : list (list byte) :=
  let totalChunks := Js.ceil_div (length buf) cs in
  (λ i, let start := i * cs in
        let end_ := Nat.min (start + cs) (length buf) in
        header id ++ Js.slice start end_ buf) <$> seq 0 totalChunks.

Definition download_packets : string → list byte → list (list byte) :=
  download_packets_sized chunkSize.

Definition handle_create_session (fuel : nat) (e : env) (deviceId : string)
    (deviceName deviceType : option string) (s : hub)
    : option (hub * list send) :=
  sessionCode ← mintSessionCode fuel (random e) 0 (sessions s);
  let session :=
    Session.Make {[ deviceId := new_device e deviceId deviceName deviceType ]}
                 ∅ (now e) in
  Some (Hub (<[sessionCode := session]> (sessions s))
            (<[deviceId := sessionCode]> (deviceToSession s))
            (Stats (S (totalUsers (stats s))) (S (totalSessions (stats s)))),
        [(deviceId,
          session_created sessionCode deviceId (size (Session.devices session)))]).

(** [message.sessionCode?.toUpperCase()]: the code looked up ([None] when
    the field is missing), unless the call throws a TypeError. *)
Definition uppercased (code : code_field) : option (option string) :=
  match code with
  | code_missing => Some None
  | code_string c => Some (Some (Js.toUpperCase c))
  | code_other => None
  end.

Definition session_not_found : frame :=
  session_error "Session not found. Check the code and try again.".

Definition handle_join_session (e : env) (deviceId : string)
    (code : code_field) (deviceName deviceType : option string) (s : hub)
    : hub * list send :=
  match uppercased code with
  | None => (s, [])          (* thrown, and caught by the message callback *)
  | Some None => (s, [(deviceId, session_not_found)])
  | Some (Some sessionCode) =>
      match sessions s !! sessionCode with
      | None => (s, [(deviceId, session_not_found)])
      | Some session =>
          let devs := <[deviceId := new_device e deviceId deviceName deviceType]>
                        (Session.devices session) in
          let ss := <[sessionCode := Session.set_devices devs session]> (sessions s) in
          let existingFiles := meta_of <$> (map_to_list (Session.files session)).*2 in
          (Hub ss (<[deviceId := sessionCode]> (deviceToSession s))
               (Stats (S (totalUsers (stats s))) (totalSessions (stats s))),
           [(deviceId, session_joined sessionCode deviceId (size devs))]
           ++ broadcastToSession (ready e) ss sessionCode
                (device_joined deviceId deviceName deviceType (size devs))
                (Some deviceId)
           ++ (if decide (existingFiles = []) then []
               else [(deviceId, existing_files existingFiles)]))
      end
  end.

Definition handle_file_start (e : env) (deviceId : string)
    (fileName : string) (fileSize : Z) (mimeType : string) (s : hub)
    : hub * list send :=
  in_session s deviceId (λ sessionCode session,
    let fileId := uuidv4 e in
    let file := File.Make fileId fileName fileSize mimeType (now e)
                          [] 0 deviceId None in
    (set_sessions
       (<[sessionCode :=
            Session.set_files (<[fileId := file]> (Session.files session)) session]>
          (sessions s)) s,
     [(deviceId, file_start_ack fileId fileName)])).

Definition handle_file_complete (e : env) (deviceId : string)
    (fileId : string) (s : hub) : hub * list send :=
  in_session s deviceId (λ sessionCode session,
    match Session.files session !! fileId with
    | None => (s, [])
    | Some file0 =>
        let file := File.complete file0 in
        let ss := <[sessionCode :=
                      Session.set_files (<[fileId := file]> (Session.files session))
                                        session]> (sessions s) in
        (set_sessions ss s,
         broadcastToSession (ready e) ss sessionCode (new_file (meta_of file))
                            (Some deviceId)
         ++ [(deviceId, file_complete_ack fileId)])
    end).

Definition handle_request_file (deviceId : string) (fileId : string) (s : hub)
    : hub * list send :=
  in_session s deviceId (λ sessionCode session,
    match Session.files session !! fileId with
    | Some requestedFile =>
        match File.data requestedFile with
        | Some buf =>
            (s,
             [(deviceId,
               file_download_start (File.id requestedFile)
                 (File.originalName requestedFile) (File.size requestedFile)
                 (File.mimetype requestedFile))]
             ++ ((λ packet, (deviceId, binary packet))
                   <$> download_packets (File.id requestedFile) buf)
             ++ [(deviceId, file_download_complete (File.id requestedFile))])
        | None => (s, [])
        end
    | None => (s, [])
    end).

Definition handle_delete_file (e : env) (deviceId : string)
    (fileId : string) (s : hub) : hub * list send :=
  in_session s deviceId (λ sessionCode session,
    match Session.files session !! fileId with
    | Some _ =>
        let ss := <[sessionCode :=
                      Session.set_files (delete fileId (Session.files session))
                                        session]> (sessions s) in
        (set_sessions ss s,
         broadcastToSession (ready e) ss sessionCode (file_removed fileId) None)
    | None => (s, [])
    end).

(** [None] only when [create_session] has not found a free code within
    [fuel] attempts. *)
Definition handleJsonMessage (fuel : nat) (e : env) (deviceId : string)
    (m : message) (s : hub) : option (hub * list send) :=
  match m with
  | create_session deviceName deviceType =>
      handle_create_session fuel e deviceId deviceName deviceType s
  | join_session code deviceName deviceType =>
      Some (handle_join_session e deviceId code deviceName deviceType s)
  | file_start fileName fileSize mimeType =>
      Some (handle_file_start e deviceId fileName fileSize mimeType s)
  | file_complete fileId => Some (handle_file_complete e deviceId fileId s)
  | request_file fileId => Some (handle_request_file deviceId fileId s)
  | delete_file fileId => Some (handle_delete_file e deviceId fileId s)
  | ping => Some (s, [(deviceId, pong)])
  | unknown_type => Some (s, [])
  end.

(** [data.slice(0, 36).toString()]: the key looked up for a binary frame. *)
Definition frame_fileId (data : list byte) : string :=
  String.string_of_list_byte (take 36 data).

Definition handleBinaryMessage (deviceId : string) (data : list byte) (s : hub)
    : hub * list send :=
  in_session s deviceId (λ sessionCode session,
    let fileId := frame_fileId data in
    let chunk := drop 36 data in
    match Session.files session !! fileId with
    | Some file0 =>
        let file := File.push_chunk chunk file0 in
        (set_sessions
           (<[sessionCode :=
                Session.set_files (<[fileId := file]> (Session.files session))
                                  session]> (sessions s)) s,
         [(deviceId,
           upload_progress fileId (File.receivedSize file) (File.size file))])
    | None => (s, [])
    end).

(** [ws.on('close', ...)].  The [setTimeout] it may schedule is the event
    [empty_session_timeout] below. *)
Definition handle_close (e : env) (deviceId : string) (s : hub)
    : hub * list send :=
  let '(s1, out) :=
    in_session s deviceId (λ sessionCode session,
      let devs := delete deviceId (Session.devices session) in
      let ss := <[sessionCode := Session.set_devices devs session]> (sessions s) in
      (set_sessions ss s,
       broadcastToSession (ready e) ss sessionCode
                          (device_left deviceId (size devs)) None)) in
  (Hub (sessions s1) (delete deviceId (deviceToSession s1)) (stats s1), out).

(** The callback of the [setTimeout] scheduled when a session becomes empty. *)
Definition handle_empty_session_timeout (sessionCode : string) (s : hub) : hub :=
  match sessions s !! sessionCode with
  | Some currentSession =>
      if size (Session.devices currentSession) =? 0
      then set_sessions (delete sessionCode (sessions s)) s
      else s
  | None => s
  end.

(** [Date.now() - 30 * 60 * 1000] *)
Definition thirtyMinutesAgo (e : env) : Z := (now e - 30 * 60 * 1000)%Z.

(** [uploadTime < thirtyMinutesAgo], on a [files] entry. *)
Definition stale (cutoff : Z) (kv : string * File.t) : Prop :=
  (File.uploadedAt kv.2 < cutoff)%Z.

#[global] Instance stale_dec cutoff kv : Decision (stale cutoff kv).
Proof. unfold stale. apply _. Defined.

(** [session.files.forEach] of the janitor: the files kept. *)
Definition janitor_files (cutoff : Z) (session : Session.t)
    : gmap string File.t :=
  filter (λ kv, ¬ stale cutoff kv) (Session.files session).

(** [session.files.forEach] of the janitor: one broadcast per file deleted.
    The session that [broadcastToSession] looks up is the one being visited. *)
Definition janitor_sends (rdy : string → bool) (cutoff : Z)
    (session : Session.t) : list send :=
  map_to_list (filter (stale cutoff) (Session.files session)) ≫=
    (λ kv, broadcastToDevices rdy (Session.devices session)
                              (file_removed kv.1) None).

(** The visit of one session: [None] when the session is deleted. *)
Definition janitor_session (cutoff : Z) (session : Session.t)
    : option Session.t :=
  if (size (Session.devices session) =? 0)
     && bool_decide (Session.createdAt session < cutoff)%Z
  then None
  else Some (Session.set_files (janitor_files cutoff session) session).

(** The [setInterval] callback. *)
Definition janitor (e : env) (s : hub) : hub * list send :=
  let cutoff := thirtyMinutesAgo e in
  (set_sessions (omap (janitor_session cutoff) (sessions s)) s,
   map_to_list (sessions s) ≫= (λ kv, janitor_sends (ready e) cutoff kv.2)).

(** ** The hub as a transition system *)

Inductive event :=
  | on_message (deviceId : string) (m : message)
  | on_binary (deviceId : string) (data : list byte)
  | on_close (deviceId : string)
  | empty_session_timeout (sessionCode : string)
  | janitor_tick.

Definition step (fuel : nat) (e : env) (ev : event) (s : hub)
    : option (hub * list send) :=
  match ev with
  | on_message deviceId m => handleJsonMessage fuel e deviceId m s
  | on_binary deviceId data => Some (handleBinaryMessage deviceId data s)
  | on_close deviceId => Some (handle_close e deviceId s)
  | empty_session_timeout sessionCode =>
      Some (handle_empty_session_timeout sessionCode s, [])
  | janitor_tick => Some (janitor e s)
  end.

(** A run: each event comes with the environment it is handled in. *)
Fixpoint run (fuel : nat) (tr : list (env * event)) (s : hub)
    : option (hub * list send) :=
  match tr with
  | [] => Some (s, [])
  | (e, ev) :: tr' =>
      '(s1, out1) ← step fuel e ev s;
      '(s2, out2) ← run fuel tr' s1;
      Some (s2, out1 ++ out2)
  end.

Inductive reachable : hub → Prop :=
  | reachable_init : reachable hub_init
  | reachable_step fuel e ev s s' out :
      reachable s → step fuel e ev s = Some (s', out) → reachable s'.

(** The frames sent on the socket of [deviceId], in order. *)
Definition frames_to (deviceId : string) (out : list send) : list frame :=
  (filter (λ p : send, p.1 = deviceId) out).*2.

(** ** Notions used in the statements *)

(** The device is registered in a live session: what the first four lines of
    every file handler check. *)
Definition bound_to (s : hub) (deviceId sessionCode : string)
    (session : Session.t) : Prop :=
  deviceToSession s !! deviceId = Some sessionCode
  ∧ sessionCode ≠ ""
  ∧ sessions s !! sessionCode = Some session.

(** Six characters, each one of the 32 symbols of [chars]. *)
Definition valid_code (code : string) : Prop :=
  String.length code = 6
  ∧ Forall (λ c, c ∈ String.list_ascii_of_string chars)
           (String.list_ascii_of_string code).

(** [code] is [C] with some of its capital letters written in lower case. *)
Fixpoint case_variant (code C : string) : bool :=
  match code, C with
  | EmptyString, EmptyString => true
  | String a code', String b C' =>
      (Ascii.eqb a b
       || ((65 <=? nat_of_ascii b) && (nat_of_ascii b <=? 90)
           && (nat_of_ascii a =? nat_of_ascii b + 32)))
      && case_variant code' C'
  | _, _ => false
  end.

(** The [i]-th slice the download loop cuts, for a chunk size [cs]. *)
Definition nth_slice {A} (cs : nat) (buf : list A) (i : nat) : list A :=
  Js.slice (i * cs) (Nat.min (i * cs + cs) (length buf)) buf.

(** How a file found in a store after a step got there. *)
Inductive file_origin (e : env) (ev : event) (old : option File.t)
    (fileId : string) : File.t → Prop :=
  | origin_kept file :
      old = Some file → file_origin e ev old fileId file
  | origin_started deviceId fileName fileSize mimeType :
      ev = on_message deviceId (file_start fileName fileSize mimeType) →
      fileId = uuidv4 e →
      file_origin e ev old fileId
        (File.Make fileId fileName fileSize mimeType (now e) [] 0 deviceId None)
  | origin_pushed file0 chunk :
      old = Some file0 →
      file_origin e ev old fileId (File.push_chunk chunk file0)
  | origin_completed file0 :
      old = Some file0 →
      file_origin e ev old fileId (File.complete file0).

(** [receivedSize] is the number of bytes in the chunk list. *)
Definition counted (file : File.t) : Prop :=
  File.receivedSize file
  = Z.of_nat (length (concat (File.chunks file))).

(** The chunks pushed on a file by a sequence of binary frames. *)
Definition push_all (payloads : list (list byte)) (file0 : File.t) : File.t :=
  foldl (λ f chunk, File.push_chunk chunk f) file0 payloads.

(** The binary frames of an upload: the 36 bytes of the id, then the chunk. *)
Definition upload_frames (U fileId : string) (chunks : list (env * list byte))
    : list (env * event) :=
  (λ ec : env * list byte,
     (ec.1, on_binary U (String.list_byte_of_string fileId ++ ec.2))) <$> chunks.

(** A whole upload by device [U]: [file_start] handled in environment [e]
    (so the file id is [uuidv4 e]), the binary frames, then [file_complete]. *)
Definition upload (U : string) (e : env) (fileName : string) (fileSize : Z)
    (mimeType : string) (chunks : list (env * list byte)) (e' : env)
    : list (env * event) :=
  (e, on_message U (file_start fileName fileSize mimeType))
  :: upload_frames U (uuidv4 e) chunks
  ++ [(e', on_message U (file_complete (uuidv4 e)))].


(** [s] without its trailing spaces (0x20). *)
Fixpoint strip_trailing_spaces (s : string) : string :=
  match s with
  | EmptyString => EmptyString
  | String a s' =>
      match strip_trailing_spaces s' with
      | EmptyString =>
          if Ascii.eqb a " "%char then EmptyString else String a EmptyString
      | t => String a t
      end
  end.


(** The shape of the ids [uuidv4] returns, as far as matching goes: 36
    characters, the last of which is not a space. *)
Definition uuid_shaped (id : string) : Prop :=
  String.length id = 36 ∧ strip_trailing_spaces id = id.

(** The states the hub reaches when [uuidv4] returns ids of that shape. *)
Inductive reachable_uuid : hub → Prop :=
  | reachable_uuid_init : reachable_uuid hub_init
  | reachable_uuid_step fuel e ev s s' out :
      reachable_uuid s →
      uuid_shaped (uuidv4 e) →
      step fuel e ev s = Some (s', out) →
      reachable_uuid s'.

(** The payloads of the binary frames among the frames sent: what follows
    the 36 header bytes of each, in order. *)
Definition payloads_of (out : list send) : list (list byte) :=
  omap (λ p : send,
          match p.2 with
          | binary packet => Some (drop 36 packet)
          | _ => None
          end) out.

(** The frame is [file_removed] for this file id. *)
Definition is_file_removed (fileId : string) (fr : frame) : Prop :=
  fr = file_removed fileId.

#[global] Instance is_file_removed_dec fileId fr :
  Decision (is_file_removed fileId fr).
Proof.
  unfold is_file_removed.
  refine (match fr with
          | file_removed f => cast_if (decide (f = fileId))
          | _ => right _
          end); congruence.
Defined.

(** The step is a [file_start] for which [uuidv4] returns [fileId]. *)
Definition mints (fileId : string) (x : env * event) : Prop :=
  match x.2 with
  | on_message _ (file_start _ _ _) => uuidv4 x.1 = fileId
  | _ => False
  end.

(** No session registered under [c] holds a file [fileId]. *)
Definition absent (c fileId : string) (s : hub) : Prop :=
  ∀ session, sessions s !! c = Some session →
             Session.files session !! fileId = None.

(** ** Scenarios

    The concrete devices, environments and hub states on which the
    statements below are instantiated.  They follow the end-to-end
    scenarios of the specification. *)

Definition devA : string := "aaaaaaaa-aaaa-4aaa-8aaa-aaaaaaaaaaaa".
Definition devB : string := "bbbbbbbb-bbbb-4bbb-8bbb-bbbbbbbbbbbb".
Definition devC : string := "cccccccc-cccc-4ccc-8ccc-cccccccccccc".

(** [Math.random()] returning 0, and 0.5. *)
Definition r0 : Js.float01 := Js.Float01 0 eq_refl.
Definition r_half : Js.float01 := Js.Float01 (2 ^ 1073) eq_refl.

(** All sockets open, the clock at 0, and [Math.random()] always 0: the
    code generated is AAAAAA. *)
Definition env0 : env :=
  Env (λ _, true) 0 "11111111-2222-4333-8444-555555555555" (λ _, r0).

(** [Math.random()] returns 0 six times, then 0.5: the first code generated
    is AAAAAA, the second SSSSSS. *)
Definition env_retry : env :=
  Env (λ _, true) 0 "77777777-2222-4333-8444-555555555555"
      (λ i, if i <? 6 then r0 else r_half).

(** The clock 31 minutes later. *)
Definition env_31min : env :=
  Env (λ _, true) (31 * 60 * 1000) "99999999-2222-4333-8444-555555555555"
      (λ _, r0).

Definition fileF : string := uuidv4 env0.
Definition hel : list byte := String.list_byte_of_string "hel".
Definition hello : list byte := String.list_byte_of_string "hello".
Definition hello_world : list byte := String.list_byte_of_string "hello world".

(** The hub after a run from the initial state. *)
Definition hub_after (tr : list (env * event)) : hub :=
  match run 1 tr hub_init with
  | Some (s, _) => s
  | None => hub_init
  end.

Definition session_of (s : hub) (sessionCode : string) : Session.t :=
  default (Session.Make ∅ ∅ 0) (sessions s !! sessionCode).

(** A has created a session. *)
Definition hub_S0 : hub :=
  hub_after [ (env0, on_message devA (create_session (Some "Mac") (Some "mac"))) ].

(** S1: A creates a session and B joins it with the code in lower case. *)
Definition tr_S1 : list (env * event) :=
  [ (env0, on_message devA (create_session (Some "Mac") (Some "mac")));
    (env0, on_message devB
             (join_session (code_string "aaaaaa") (Some "iPhone") (Some "iphone"))) ].

Definition hub_S1 : hub := hub_after tr_S1.

(** S2: then A uploads [hello] as a 5-byte file and completes it. *)
Definition tr_S2 : list (env * event) :=
  tr_S1 ++ upload devA env0 "hi.txt" 5 "text/plain" [(env0, hello)] env0.

Definition hub_S2 : hub := hub_after tr_S2.

Definition file_S2 : File.t :=
  File.Make fileF "hi.txt" 5 "text/plain" 0 [] 5 devA (Some hello).

(** A creates a session, starts a file declared as 5 bytes, and sends one
    binary frame with the given payload. *)
Definition tr_upload_of (payload : list byte) : list (env * event) :=
  [ (env0, on_message devA (create_session (Some "Mac") (Some "mac")));
    (env0, on_message devA (file_start "hi.txt" 5 "text/plain"));
    (env0, on_binary devA (String.list_byte_of_string fileF ++ payload)) ].

Definition hub_short : hub := hub_after (tr_upload_of hel).

Definition file_short : File.t :=
  File.Make fileF "hi.txt" 5 "text/plain" 0 [hel] 3 devA None.

(** S2, then A sends [file_complete] for the same file once more. *)
Definition tr_twice : list (env * event) :=
  tr_S2 ++ [ (env0, on_message devA (file_complete fileF)) ].

Definition hub_twice : hub := hub_after tr_twice.

(** ** Further notions: membership, local address *)

(** Every device of the index is listed by the session it is mapped to,
    and that session is live. *)
Definition index_listed (s : hub) : Prop :=
  ∀ deviceId sessionCode,
    deviceToSession s !! deviceId = Some sessionCode →
    ∃ session,
      sessions s !! sessionCode = Some session
      ∧ is_Some (Session.devices session !! deviceId).

(** Each device and each file is stored under its own id. *)
Definition keyed_by_id (s : hub) : Prop :=
  ∀ sessionCode session,
    sessions s !! sessionCode = Some session →
    (∀ k dev, Session.devices session !! k = Some dev → Device.id dev = k)
    ∧ (∀ k file, Session.files session !! k = Some file → File.id file = k).

(** The event is file traffic from device [U]: a file control frame or a
    binary frame. *)
Definition file_traffic (U : string) (ev : event) : Prop :=
  match ev with
  | on_message d (file_start _ _ _)
  | on_message d (file_complete _)
  | on_message d (request_file _)
  | on_message d (delete_file _)
  | on_binary d _ => d = U
  | _ => False
  end.

(** Two live sessions: AAAAAA with A and B, and SSSSSS created by C (the
    first code C's request generates is taken, the second is not). *)
Definition hub_two_sessions : hub :=
  match run 2 (tr_S1 ++ [ (env_retry, on_message devC (create_session None None)) ])
            hub_init with
  | Some (s, _) => s
  | None => hub_init
  end.

(** One entry of [os.networkInterfaces()[name]]. *)
Record iface := Iface {
  family : string;
  internal : bool;
  address : string
}.

(** The inner [for] loop of [getLocalIP]: the address of the first entry
    with [family === 'IPv4' && !internal]. *)
Fixpoint first_external (ifaces : list iface) : option string :=
  match ifaces with
  | [] => None
  | i :: rest =>
      if bool_decide (family i = "IPv4") && negb (internal i)
      then Some (address i)
      else first_external rest
  end.

(** [getLocalIP], on the value of [os.networkInterfaces()]: the interface
    names in the order of [Object.keys], each with its entries. *)
Fixpoint getLocalIP (interfaces : list (string * list iface)) : string :=
  match interfaces with
  | [] => "localhost"
  | (_, ifaces) :: rest =>
      match first_external ifaces with
      | Some a => a
      | None => getLocalIP rest
      end
  end.

(** The entry is an IPv4 address that is not internal. *)
Definition external_ipv4 (i : iface) : Prop :=
  family i = "IPv4" ∧ internal i = false.

#[global] Instance external_ipv4_dec i : Decision (external_ipv4 i).
Proof. unfold external_ipv4. apply _. Defined.

(** The number of bytes received once each chunk of a list has arrived,
    starting from [received]. *)
Fixpoint running_totals (received : Z) (payloads : list (list byte)) : list Z :=
  match payloads with
  | [] => []
  | p :: rest =>
      (received + Z.of_nat (length p))%Z
      :: running_totals (received + Z.of_nat (length p)) rest
  end.

(** * Properties *)

(** Closed goals about concrete values are settled by evaluation. *)
Ltac by_computation := vm_compute; first [reflexivity | discriminate | lia].

(** ** The scenarios of the specification, run on the model *)

(** S1, create and join: B joins with the code in lower case. *)
Example scenario_create_and_join :
  snd <$> run 1 tr_S1 hub_init
  = Some [ (devA, session_created "AAAAAA" devA 1);
           (devB, session_joined "AAAAAA" devB 2);
           (devA, device_joined devB (Some "iPhone") (Some "iphone") 2) ].
Proof. by_computation. Qed.

(** S2, upload and fan-out: progress and the acknowledgement go to A,
    [new_file] goes to B. *)
Example scenario_upload :
  snd <$> run 1 (upload devA env0 "hi.txt" 5 "text/plain" [(env0, hello)] env0)
              hub_S1
  = Some [ (devA, file_start_ack fileF "hi.txt");
           (devA, upload_progress fileF 5 5);
           (devB, new_file (FileMeta fileF "hi.txt" 5 "text/plain" 0));
           (devA, file_complete_ack fileF) ].
Proof. by_computation. Qed.

(** S2, download: one packet, the 36 bytes of the id then [hello]. *)
Example scenario_download :
  snd <$> handleJsonMessage 1 env0 devB (request_file fileF) hub_S2
  = Some [ (devB, file_download_start fileF "hi.txt" 5 "text/plain");
           (devB, binary (String.list_byte_of_string fileF ++ hello));
           (devB, file_download_complete fileF) ].
Proof. by_computation. Qed.

(** With a chunk size of 2, five bytes go out in three packets. *)
Example download_in_three_packets :
  drop 36 <$> download_packets_sized 2 fileF hello
  = String.list_byte_of_string <$> ["he"; "ll"; "o"].
Proof. by_computation. Qed.

(** S3, unknown session. *)
Example scenario_unknown_session :
  handleJsonMessage 1 env0 devC
    (join_session (code_string "ZZZZZZ") None None) hub_S1
  = Some (hub_S1, [(devC, session_not_found)]).
Proof. by_computation. Qed.

(** S4, leave: A is told that B left. *)
Example scenario_leave :
  snd <$> step 1 env0 (on_close devB) hub_S1
  = Some [ (devA, device_left devB 1) ].
Proof. by_computation. Qed.

(** S5, delete: A and B are told, and a later request is not answered. *)
Example scenario_delete :
  snd <$> run 1 [ (env0, on_message devA (delete_file fileF));
                  (env0, on_message devB (request_file fileF)) ] hub_S2
  = Some [ (devA, file_removed fileF); (devB, file_removed fileF) ].
Proof. by_computation. Qed.

(** S6, expiry: 31 minutes later the janitor removes the file and tells
    both members. *)
Example scenario_expiry :
  (λ r, (Session.files (session_of r.1 "AAAAAA") !! fileF, r.2))
    <$> step 1 env_31min janitor_tick hub_S2
  = Some (None, [ (devA, file_removed fileF); (devB, file_removed fileF) ]).
Proof. by_computation. Qed.

(** ** JavaScript primitives *)

Section js_facts.

Lemma floor_mul_lt r k : 0 < k → Js.floor_mul r k < k.
Proof.
  intros Hk. unfold Js.floor_mul.
  pose proof (Js.mant_lt r) as Hr. apply N.ltb_lt in Hr.
  generalize dependent (2 ^ 1074)%N. intros d Hr.
  assert (Js.mant r * N.of_nat k / d < N.of_nat k)%N; [|lia].
  apply N.Div0.div_lt_upper_bound.
  apply N.mul_lt_mono_pos_r; [lia|done].
Qed.

(** [ceil_div a b] is the least [k] with [a ≤ k * b]. *)
Lemma ceil_div_covers a b : 0 < b → a ≤ Js.ceil_div a b * b.
Proof.
  intros Hb. unfold Js.ceil_div.
  pose proof (Nat.div_mod_eq a b) as Hdm.
  pose proof (Nat.mod_upper_bound a b) as Hub.
  destruct (Nat.eqb_spec (a mod b) 0); nia.
Qed.

Lemma ceil_div_least a b k : 0 < b → a ≤ k * b → Js.ceil_div a b ≤ k.
Proof.
  intros Hb Hk. unfold Js.ceil_div.
  pose proof (Nat.div_mod_eq a b) as Hdm.
  pose proof (Nat.mod_upper_bound a b) as Hub.
  destruct (Nat.eqb_spec (a mod b) 0); nia.
Qed.

Lemma charAt_in s i :
  i < String.length s →
  ∃ c, Js.charAt s i = String c EmptyString ∧ c ∈ String.list_ascii_of_string s.
Proof.
  revert i. induction s as [|a s IH]; intros i Hi; simpl in Hi; [lia|].
  destruct i as [|i].
  - exists a. split; [done|]. simpl. left.
  - destruct (IH i) as (c & Hc & Hin); [lia|].
    exists c. unfold Js.charAt in *. simpl. split; [done|]. simpl. by right.
Qed.

Lemma length_string_app (s t : string) :
  String.length (s +:+ t) = String.length s + String.length t.
Proof. induction s as [|a s IH]; simpl; [done | by rewrite IH]. Qed.

Lemma list_ascii_string_app (s t : string) :
  String.list_ascii_of_string (s +:+ t)
  = String.list_ascii_of_string s ++ String.list_ascii_of_string t.
Proof. induction s as [|a s IH]; simpl; [done | by rewrite IH]. Qed.

Lemma length_list_byte_of_string (s : string) :
  length (String.list_byte_of_string s) = String.length s.
Proof.
  unfold String.list_byte_of_string.
  induction s as [|a s IH]; simpl; [done | by rewrite IH].
Qed.

End js_facts.

(** ** Download chunking *)

Section chunking.
Context {A : Type}.
Variable cs : nat.
Hypothesis cs_pos : 0 < cs.

Lemma length_nth_slice (buf : list A) i : length (nth_slice cs buf i) ≤ cs.
Proof using Type.
  clear cs_pos. unfold nth_slice, Js.slice. rewrite length_take. lia.
Qed.

(** The first [k] slices make up the first [k * cs] bytes. *)
Lemma concat_slices_prefix (buf : list A) k :
  concat (nth_slice cs buf <$> seq 0 k) = take (k * cs) buf.
Proof using cs_pos.
  induction k as [|k IH]; [done|].
  rewrite seq_S, fmap_app, concat_app, IH. simpl.
  rewrite app_nil_r. unfold nth_slice, Js.slice.
  destruct (decide (k * cs + cs ≤ length buf)).
  - rewrite Nat.min_l by done.
    replace (k * cs + cs - k * cs) with cs by lia.
    rewrite take_take_drop. f_equal. lia.
  - rewrite Nat.min_r by lia.
    rewrite (take_ge buf (cs + k * cs)) by lia.
    destruct (decide (k * cs ≤ length buf)).
    + rewrite take_take_drop.
      apply take_ge. lia.
    + replace (length buf - k * cs) with 0 by lia.
      rewrite take_0, app_nil_r. apply take_ge. lia.
Qed.

Lemma concat_slices (buf : list A) :
  concat (nth_slice cs buf <$> seq 0 (Js.ceil_div (length buf) cs)) = buf.
Proof using cs_pos.
  rewrite concat_slices_prefix. apply take_ge.
  by apply ceil_div_covers.
Qed.

End chunking.

Lemma length_header id : length (header id) = 36.
Proof.
  unfold header. rewrite length_take, length_app, length_replicate. lia.
Qed.

(** A 36-character id fills the header: no padding byte is left. *)
Lemma header_full id :
  String.length id = 36 → header id = String.list_byte_of_string id.
Proof.
  intros Hlen. unfold header.
  rewrite take_app_length'; [done|].
  by rewrite length_list_byte_of_string.
Qed.

Lemma chunkSize_pos : 0 < chunkSize.
Proof. unfold chunkSize. lia. Qed.

Lemma download_packets_sized_spec cs id buf :
  0 < cs →
  length (download_packets_sized cs id buf) = Js.ceil_div (length buf) cs
  ∧ Forall (λ p, take 36 p = header id ∧ length (drop 36 p) ≤ cs)
           (download_packets_sized cs id buf)
  ∧ concat (drop 36 <$> download_packets_sized cs id buf) = buf.
Proof.
  intros Hcs. unfold download_packets_sized.
  split_and!.
  - by rewrite length_fmap, length_seq.
  - apply Forall_fmap, Forall_forall. intros i _. simpl.
    rewrite take_app_length', drop_app_length' by (by rewrite length_header).
    split; [done|]. apply (length_nth_slice cs buf i).
  - rewrite <- list_fmap_compose.
    rewrite <- (concat_slices cs Hcs buf) at 2.
    f_equal. apply list_fmap_ext. intros _ i _. simpl.
    by rewrite drop_app_length' by (by rewrite length_header).
Qed.

(** ** Sessions, sockets and broadcasts *)

Lemma in_session_bound s deviceId sessionCode session k :
  bound_to s deviceId sessionCode session →
  in_session s deviceId k = k sessionCode session.
Proof.
  intros (Hidx & Hne & Hs). unfold in_session. rewrite Hidx.
  destruct sessionCode; [done|]. simpl. by rewrite Hs.
Qed.

(** Whatever the continuation does, it is run on a live session. *)
Lemma in_session_cases s deviceId k :
  in_session s deviceId k = (s, [])
  ∨ ∃ sessionCode session,
      bound_to s deviceId sessionCode session
      ∧ in_session s deviceId k = k sessionCode session.
Proof.
  unfold in_session, bound_to.
  destruct (deviceToSession s !! deviceId) as [c|] eqn:Hidx; [|by left].
  destruct c as [|a c]; [by left|]. simpl.
  destruct (sessions s !! String a c) as [session|] eqn:Hs; [|by left].
  right. by exists (String a c), session.
Qed.

Section frames.
Implicit Types (out : list send) (D : string).

Lemma frames_to_app D out1 out2 :
  frames_to D (out1 ++ out2) = frames_to D out1 ++ frames_to D out2.
Proof. unfold frames_to. by rewrite filter_app, fmap_app. Qed.

Lemma frames_to_cons D d fr out :
  frames_to D ((d, fr) :: out)
  = if decide (d = D) then fr :: frames_to D out else frames_to D out.
Proof.
  unfold frames_to. rewrite filter_cons. simpl. by case_decide.
Qed.

Lemma frames_to_bind {X} D (f : X → list send) (l : list X) :
  frames_to D (l ≫= f) = l ≫= (λ x, frames_to D (f x)).
Proof.
  induction l as [|x l IH]; [done|].
  by rewrite !bind_cons, frames_to_app, IH.
Qed.

(** A broadcast calls [send] once on each member socket that is open and
    not excluded, and on no other socket. *)
Lemma frames_to_broadcast rdy (devs : gmap string Device.t) msg ex D :
  frames_to D (broadcastToDevices rdy devs msg ex)
  = if decide (is_Some (devs !! D) ∧ Some D ≠ ex ∧ rdy D = true)
    then [msg] else [].
Proof.
  unfold broadcastToDevices.
  set (g := λ kv : string * Device.t,
              if bool_decide (Some kv.1 ≠ ex) && rdy kv.1
              then Some (kv.1, msg) else None).
  assert (Hnotin : ∀ l : list (string * Device.t),
             D ∉ l.*1 → frames_to D (omap g l) = []).
  { induction l as [|[k v] l IH]; intros Hk; [done|].
    rewrite fmap_cons, not_elem_of_cons in Hk. destruct Hk as [Hne Hk].
    simpl. unfold g at 1. simpl.
    destruct (bool_decide (Some k ≠ ex) && rdy k); [|by apply IH].
    rewrite frames_to_cons, decide_False by done. by apply IH. }
  assert (Hin : ∀ l : list (string * Device.t),
             NoDup l.*1 → D ∈ l.*1 →
             frames_to D (omap g l)
             = if decide (Some D ≠ ex ∧ rdy D = true) then [msg] else []).
  { induction l as [|[k v] l IH]; intros Hnd Hk; [by apply elem_of_nil in Hk|].
    rewrite fmap_cons in Hnd, Hk. apply NoDup_cons in Hnd as [Hfresh Hnd].
    simpl in *. unfold g at 1. simpl.
    destruct (decide (k = D)) as [->|Hne].
    - destruct (bool_decide_reflect (Some D ≠ ex)) as [Hex|Hex];
        destruct (rdy D) eqn:HrD; simpl.
      + rewrite frames_to_cons, decide_True, Hnotin by done.
        by rewrite decide_True.
      + rewrite Hnotin by done. rewrite decide_False; [done|]. by intros [_ ?].
      + rewrite Hnotin by done. rewrite decide_False; [done|]. by intros [? _].
      + rewrite Hnotin by done. rewrite decide_False; [done|]. by intros [? _].
    - apply elem_of_cons in Hk as [?|Hk]; [done|].
      destruct (bool_decide (Some k ≠ ex) && rdy k); [|by apply IH].
      rewrite frames_to_cons, decide_False by done. by apply IH. }
  destruct (devs !! D) as [dev|] eqn:HD.
  - rewrite Hin.
    + destruct (decide (Some D ≠ ex ∧ rdy D = true)) as [Hsend|Hsend].
      * rewrite decide_True; [done|]. by split; [eexists|].
      * rewrite decide_False; [done|]. by intros [_ ?].
    + apply NoDup_fst_map_to_list.
    + apply list_elem_of_fmap. exists (D, dev). split; [done|].
      by apply elem_of_map_to_list.
  - rewrite Hnotin.
    + rewrite decide_False; [done|]. intros [[? ?] _]. done.
    + intros ([k v] & -> & Hkv)%list_elem_of_fmap.
      apply elem_of_map_to_list in Hkv. simpl in *. congruence.
Qed.

Lemma frames_to_broadcastToSession rdy ss sessionCode session msg ex D :
  ss !! sessionCode = Some session →
  frames_to D (broadcastToSession rdy ss sessionCode msg ex)
  = if decide (is_Some (Session.devices session !! D)
               ∧ Some D ≠ ex ∧ rdy D = true)
    then [msg] else [].
Proof.
  intros Hs. unfold broadcastToSession. rewrite Hs.
  apply frames_to_broadcast.
Qed.

End frames.

(** ** Session codes *)

Example chars_has_32_symbols :
  String.length chars = 32 ∧ NoDup (String.list_ascii_of_string chars).
Proof. split; [reflexivity | apply (bool_decide_unpack _); by_computation]. Qed.

Lemma generateSessionCode_from_spec n rnd pos code :
  String.length (generateSessionCode_from n rnd pos code)
  = String.length code + n
  ∧ (Forall (λ c, c ∈ String.list_ascii_of_string chars)
            (String.list_ascii_of_string code) →
     Forall (λ c, c ∈ String.list_ascii_of_string chars)
            (String.list_ascii_of_string
               (generateSessionCode_from n rnd pos code))).
Proof.
  revert pos code. induction n as [|n IH]; intros pos code;
    cbn [generateSessionCode_from].
  { split; [lia|done]. }
  destruct (charAt_in chars (Js.floor_mul (rnd pos) (String.length chars)))
    as (c & Hc & Hin).
  { apply floor_mul_lt. vm_compute. lia. }
  destruct (IH (S pos) (code +:+ Js.charAt chars
                          (Js.floor_mul (rnd pos) (String.length chars))))
    as [Hlen Hall].
  split.
  - rewrite Hlen, length_string_app, Hc. simpl. lia.
  - intros Hcode. apply Hall.
    rewrite list_ascii_string_app, Hc. simpl.
    apply Forall_app. split; [done|]. by apply Forall_singleton.
Qed.

Lemma generateSessionCode_valid rnd pos :
  valid_code (generateSessionCode rnd pos).
Proof.
  destruct (generateSessionCode_from_spec 6 rnd pos "") as [Hlen Hall].
  split; [done|]. apply Hall. constructor.
Qed.

(** The [while] loop ends with the first generated code that is not a key
    of [sessions]; all earlier attempts were keys. *)
Lemma mintSessionCode_Some fuel rnd pos (ss : gmap string Session.t) code :
  mintSessionCode fuel rnd pos ss = Some code →
  ∃ k, k < fuel
       ∧ code = generateSessionCode rnd (pos + 6 * k)
       ∧ ss !! code = None
       ∧ ∀ j, j < k → is_Some (ss !! generateSessionCode rnd (pos + 6 * j)).
Proof.
  revert pos. induction fuel as [|fuel IH]; intros pos;
    cbn [mintSessionCode]; [done|].
  destruct (ss !! generateSessionCode rnd pos) as [session|] eqn:Hcode.
  - intros (k & Hk & -> & Hfree & Hbusy)%IH.
    exists (S k). split_and!; [lia| f_equal; lia | done |].
    intros [|j] Hj.
    + rewrite Nat.mul_0_r, Nat.add_0_r. by rewrite Hcode.
    + replace (pos + 6 * S j) with (pos + 6 + 6 * j) by lia.
      apply Hbusy. lia.
  - intros [= <-]. exists 0.
    rewrite Nat.mul_0_r, Nat.add_0_r.
    split_and!; [lia|done|done|]. intros j Hj. lia.
Qed.

(** The loop does end, given fuel, as soon as some attempt is a free code. *)
Lemma mintSessionCode_terminates fuel rnd pos (ss : gmap string Session.t) k :
  (∀ j, j < k → is_Some (ss !! generateSessionCode rnd (pos + 6 * j))) →
  ss !! generateSessionCode rnd (pos + 6 * k) = None →
  k < fuel →
  mintSessionCode fuel rnd pos ss = Some (generateSessionCode rnd (pos + 6 * k)).
Proof.
  revert pos fuel. induction k as [|k IH]; intros pos fuel Hbusy Hfree Hfuel.
  - destruct fuel as [|fuel]; [lia|]. cbn [mintSessionCode].
    rewrite Nat.mul_0_r, Nat.add_0_r in *. by rewrite Hfree.
  - destruct fuel as [|fuel]; [lia|]. cbn [mintSessionCode].
    destruct (Hbusy 0) as [session Hs]; [lia|].
    rewrite Nat.mul_0_r, Nat.add_0_r in Hs. rewrite Hs.
    replace (pos + 6 * S k) with (pos + 6 + 6 * k) by lia.
    apply IH; [|by replace (pos + 6 + 6 * k) with (pos + 6 * S k) by lia|lia].
    intros j Hj. replace (pos + 6 + 6 * j) with (pos + 6 * S j) by lia.
    apply Hbusy. lia.
Qed.

(** ** What one step does to the stores *)

Ltac split_in_session H :=
  match type of H with
  | context [in_session ?s ?d ?k] =>
      let Heq := fresh "Heq" in
      let c0 := fresh "c0" in
      let session0 := fresh "session0" in
      let Hb := fresh "Hbound" in
      destruct (in_session_cases s d k) as [Heq | (c0 & session0 & Hb & Heq)];
      rewrite Heq in H; clear Heq
  end.

Lemma step_files fuel e ev s s' out c session' fileId file' :
  step fuel e ev s = Some (s', out) →
  sessions s' !! c = Some session' →
  Session.files session' !! fileId = Some file' →
  file_origin e ev
    (sessions s !! c ≫= λ session, Session.files session !! fileId)
    fileId file'.
Proof.
  intros Hstep Hc Hf.
  assert (Hkept : ∀ session,
             sessions s !! c = Some session →
             Session.files session !! fileId = Some file' →
             file_origin e ev
               (sessions s !! c ≫= λ session, Session.files session !! fileId)
               fileId file').
  { intros session Hs Hfile. apply origin_kept. by rewrite Hs. }
  destruct ev as [d m | d data | d | code | ]; simpl in Hstep.
  - destruct m as [n t | code n t | fileName fileSize mimeType | fid | fid | fid | | ];
      simpl in Hstep.
    + unfold handle_create_session in Hstep.
      destruct (mintSessionCode fuel (random e) 0 (sessions s)) as [code|];
        simplify_eq/=.
      destruct (decide (code = c)) as [->|Hne].
      * rewrite lookup_insert_eq in Hc. by simplify_eq/=.
      * rewrite lookup_insert_ne in Hc by done. eauto.
    + unfold handle_join_session in Hstep.
      destruct code as [|code|]; simplify_eq/=; eauto.
      destruct (sessions s !! Js.toUpperCase code) as [session|] eqn:Hs;
        simplify_eq/=; eauto.
      destruct (decide (Js.toUpperCase code = c)) as [<-|Hne].
      * rewrite lookup_insert_eq in Hc. simplify_eq/=. eauto.
      * rewrite lookup_insert_ne in Hc by done. eauto.
    + unfold handle_file_start in Hstep.
      split_in_session Hstep; simplify_eq/=; eauto.
      destruct Hbound as (_ & _ & Hs).
      destruct (decide (c0 = c)) as [->|Hne].
      * rewrite lookup_insert_eq in Hc. simplify_eq/=.
        destruct (decide (uuidv4 e = fileId)) as [<-|Hnf].
        -- rewrite lookup_insert_eq in Hf. simplify_eq/=.
           by eapply origin_started.
        -- rewrite lookup_insert_ne in Hf by done. eauto.
      * rewrite lookup_insert_ne in Hc by done. eauto.
    + unfold handle_file_complete in Hstep.
      split_in_session Hstep; simplify_eq/=; eauto.
      destruct Hbound as (_ & _ & Hs).
      destruct (Session.files session0 !! fid) as [file0|] eqn:Hfid;
        simplify_eq/=; eauto.
      destruct (decide (c0 = c)) as [->|Hne].
      * rewrite lookup_insert_eq in Hc. simplify_eq/=.
        destruct (decide (fid = fileId)) as [->|Hnf].
        -- rewrite lookup_insert_eq in Hf. simplify_eq/=.
           apply origin_completed. by rewrite Hs.
        -- rewrite lookup_insert_ne in Hf by done. eauto.
      * rewrite lookup_insert_ne in Hc by done. eauto.
    + unfold handle_request_file in Hstep.
      split_in_session Hstep; simplify_eq/=; eauto.
      destruct (Session.files session0 !! fid) as [file0|];
        [destruct (File.data file0)|]; simplify_eq/=; eauto.
    + unfold handle_delete_file in Hstep.
      split_in_session Hstep; simplify_eq/=; eauto.
      destruct Hbound as (_ & _ & Hs).
      destruct (Session.files session0 !! fid) as [file0|] eqn:Hfid;
        simplify_eq/=; eauto.
      destruct (decide (c0 = c)) as [->|Hne].
      * rewrite lookup_insert_eq in Hc. simplify_eq/=.
        apply lookup_delete_Some in Hf as [_ Hf]. eauto.
      * rewrite lookup_insert_ne in Hc by done. eauto.
    + simplify_eq/=; eauto.
    + simplify_eq/=; eauto.
  - unfold handleBinaryMessage in Hstep.
    split_in_session Hstep; simplify_eq/=; eauto.
    destruct Hbound as (_ & _ & Hs).
    destruct (Session.files session0 !! frame_fileId data) as [file0|] eqn:Hfid;
      simplify_eq/=; eauto.
    destruct (decide (c0 = c)) as [->|Hne].
    + rewrite lookup_insert_eq in Hc. simplify_eq/=.
      destruct (decide (frame_fileId data = fileId)) as [<-|Hnf].
      * rewrite lookup_insert_eq in Hf. simplify_eq/=.
        apply origin_pushed. by rewrite Hs.
      * rewrite lookup_insert_ne in Hf by done. eauto.
    + rewrite lookup_insert_ne in Hc by done. eauto.
  - unfold handle_close in Hstep.
    split_in_session Hstep; simplify_eq/=; eauto.
    destruct Hbound as (_ & _ & Hs).
    destruct (decide (c0 = c)) as [->|Hne].
    + rewrite lookup_insert_eq in Hc. simplify_eq/=. eauto.
    + rewrite lookup_insert_ne in Hc by done. eauto.
  - unfold handle_empty_session_timeout in Hstep.
    destruct (sessions s !! code) as [cur|] eqn:Hcur; simplify_eq/=; eauto.
    destruct (size (Session.devices cur) =? 0); simplify_eq/=; eauto.
    apply lookup_delete_Some in Hc as [_ Hc]. eauto.
  - unfold janitor in Hstep. simplify_eq/=.
    apply lookup_omap_Some in Hc as (session & Hj & Hs).
    unfold janitor_session in Hj.
    destruct (_ && _); simplify_eq/=.
    unfold janitor_files in Hf.
    apply map_lookup_filter_Some in Hf as [Hf _]. eauto.
Qed.

Lemma step_codes fuel e ev s s' out c session' :
  step fuel e ev s = Some (s', out) →
  sessions s' !! c = Some session' →
  is_Some (sessions s !! c) ∨ valid_code c.
Proof.
  intros Hstep Hc.
  destruct ev as [d m | d data | d | code | ]; simpl in Hstep.
  - destruct m as [n t | code n t | fileName fileSize mimeType | fid | fid | fid | | ];
      simpl in Hstep.
    + unfold handle_create_session in Hstep.
      destruct (mintSessionCode fuel (random e) 0 (sessions s)) as [code|] eqn:Hm;
        simplify_eq/=.
      destruct (decide (code = c)) as [->|Hne].
      * right. apply mintSessionCode_Some in Hm as (k & _ & -> & _).
        apply generateSessionCode_valid.
      * rewrite lookup_insert_ne in Hc by done. eauto.
    + unfold handle_join_session in Hstep.
      destruct code as [|code|]; simplify_eq/=; eauto.
      destruct (sessions s !! Js.toUpperCase code) as [session|] eqn:Hs;
        simplify_eq/=; eauto.
      destruct (decide (Js.toUpperCase code = c)) as [<-|Hne]; [eauto|].
      rewrite lookup_insert_ne in Hc by done. eauto.
    + unfold handle_file_start in Hstep.
      split_in_session Hstep; simplify_eq/=; eauto.
      destruct Hbound as (_ & _ & Hs).
      destruct (decide (c0 = c)) as [->|Hne]; [eauto|].
      rewrite lookup_insert_ne in Hc by done. eauto.
    + unfold handle_file_complete in Hstep.
      split_in_session Hstep; simplify_eq/=; eauto.
      destruct Hbound as (_ & _ & Hs).
      destruct (Session.files session0 !! fid) as [file0|]; simplify_eq/=; eauto.
      destruct (decide (c0 = c)) as [->|Hne]; [eauto|].
      rewrite lookup_insert_ne in Hc by done. eauto.
    + unfold handle_request_file in Hstep.
      split_in_session Hstep; simplify_eq/=; eauto.
      destruct (Session.files session0 !! fid) as [file0|];
        [destruct (File.data file0)|]; simplify_eq/=; eauto.
    + unfold handle_delete_file in Hstep.
      split_in_session Hstep; simplify_eq/=; eauto.
      destruct Hbound as (_ & _ & Hs).
      destruct (Session.files session0 !! fid) as [file0|]; simplify_eq/=; eauto.
      destruct (decide (c0 = c)) as [->|Hne]; [eauto|].
      rewrite lookup_insert_ne in Hc by done. eauto.
    + simplify_eq/=; eauto.
    + simplify_eq/=; eauto.
  - unfold handleBinaryMessage in Hstep.
    split_in_session Hstep; simplify_eq/=; eauto.
    destruct Hbound as (_ & _ & Hs).
    destruct (Session.files session0 !! frame_fileId data) as [file0|];
      simplify_eq/=; eauto.
    destruct (decide (c0 = c)) as [->|Hne]; [eauto|].
    rewrite lookup_insert_ne in Hc by done. eauto.
  - unfold handle_close in Hstep.
    split_in_session Hstep; simplify_eq/=; eauto.
    destruct Hbound as (_ & _ & Hs).
    destruct (decide (c0 = c)) as [->|Hne]; [eauto|].
    rewrite lookup_insert_ne in Hc by done. eauto.
  - unfold handle_empty_session_timeout in Hstep.
    destruct (sessions s !! code) as [cur|] eqn:Hcur; simplify_eq/=; eauto.
    destruct (size (Session.devices cur) =? 0); simplify_eq/=; eauto.
    apply lookup_delete_Some in Hc as [_ Hc]. eauto.
  - unfold janitor in Hstep. simplify_eq/=.
    apply lookup_omap_Some in Hc as (session & _ & Hs). eauto.
Qed.

(** ** Invariants of the reachable states *)

(** Every key of [sessions] was minted by [generateSessionCode]. *)
Lemma reachable_codes_valid s c session :
  reachable s → sessions s !! c = Some session → valid_code c.
Proof.
  intros Hr. revert c session.
  induction Hr as [|fuel e ev s s' out Hr IH Hstep]; intros c session Hc.
  - simpl in Hc. by rewrite lookup_empty in Hc.
  - destruct (step_codes _ _ _ _ _ _ _ _ Hstep Hc) as [[session0 Hs]|Hv];
      eauto.
Qed.

Lemma reachable_open_counted s c session fileId file :
  reachable s →
  sessions s !! c = Some session →
  Session.files session !! fileId = Some file →
  File.data file = None →
  counted file.
Proof.
  intros Hr. revert c session fileId file.
  induction Hr as [|fuel e ev s s' out Hr IH Hstep];
    intros c session fileId file Hc Hf Hopen.
  - simpl in Hc. by rewrite lookup_empty in Hc.
  - destruct (step_files _ _ _ _ _ _ _ _ _ _ Hstep Hc Hf)
      as [file1 Hold | | file0 chunk Hold | file0 Hold].
    + destruct (sessions s !! c) as [session0|] eqn:Hs; simplify_eq/=. eauto.
    + done.
    + destruct (sessions s !! c) as [session0|] eqn:Hs; simplify_eq/=.
      unfold counted. simpl.
      rewrite (IH _ _ _ _ Hs Hold Hopen).
      rewrite concat_app, length_app. simpl. rewrite app_nil_r. lia.
    + done.
Qed.

Lemma run_reachable fuel tr s s' out :
  reachable s → run fuel tr s = Some (s', out) → reachable s'.
Proof.
  revert s out. induction tr as [|[e ev] tr IH]; intros s out Hr Hrun;
    simpl in Hrun.
  - by simplify_eq.
  - destruct (step fuel e ev s) as [[s1 out1]|] eqn:Hstep; simplify_eq/=.
    destruct (run fuel tr s1) as [[s2 out2]|] eqn:Hrest; simplify_eq/=.
    eapply IH; [|done]. by eapply reachable_step.
Qed.

(** ** Runs *)

Lemma run_app fuel tr1 tr2 s :
  run fuel (tr1 ++ tr2) s
  = '(s1, out1) ← run fuel tr1 s;
    '(s2, out2) ← run fuel tr2 s1;
    Some (s2, out1 ++ out2).
Proof.
  revert s. induction tr1 as [|[e ev] tr1 IH]; intros s; simpl.
  - by destruct (run fuel tr2 s) as [[s2 out2]|].
  - destruct (step fuel e ev s) as [[s1 out1]|]; simpl; [|done].
    rewrite IH.
    destruct (run fuel tr1 s1) as [[s2 out2]|]; simpl; [|done].
    destruct (run fuel tr2 s2) as [[s3 out3]|]; simpl; [|done].
    by rewrite app_assoc.
Qed.

(** ** Upload *)

Lemma frame_fileId_exact fileId payload :
  String.length fileId = 36 →
  frame_fileId (String.list_byte_of_string fileId ++ payload) = fileId
  ∧ drop 36 (String.list_byte_of_string fileId ++ payload) = payload.
Proof.
  intros Hlen. unfold frame_fileId.
  rewrite take_app_length', drop_app_length'
    by (by rewrite length_list_byte_of_string).
  by rewrite String.string_of_list_byte_of_string.
Qed.

(** A binary frame whose first 36 bytes are a key of the store: the rest of
    the frame is appended to that file, with no look at the declared size. *)
Lemma handleBinaryMessage_stored s U c session data file0 :
  bound_to s U c session →
  Session.files session !! frame_fileId data = Some file0 →
  handleBinaryMessage U data s
  = (set_sessions
       (<[c := Session.set_files
                 (<[frame_fileId data := File.push_chunk (drop 36 data) file0]>
                    (Session.files session)) session]> (sessions s)) s,
     [(U, upload_progress (frame_fileId data)
            (File.receivedSize file0 + Z.of_nat (length (drop 36 data)))
            (File.size file0))]).
Proof.
  intros Hb Hf. unfold handleBinaryMessage.
  rewrite (in_session_bound _ _ _ _ _ Hb). by rewrite Hf.
Qed.

(** A binary frame whose first 36 bytes are no key of the store is dropped. *)
Lemma handleBinaryMessage_dropped s U c session data :
  bound_to s U c session →
  Session.files session !! frame_fileId data = None →
  handleBinaryMessage U data s = (s, []).
Proof.
  intros Hb Hf. unfold handleBinaryMessage.
  rewrite (in_session_bound _ _ _ _ _ Hb). by rewrite Hf.
Qed.

Lemma handle_file_complete_stored e s U c session fileId file0 :
  bound_to s U c session →
  Session.files session !! fileId = Some file0 →
  handle_file_complete e U fileId s
  = (set_sessions
       (<[c := Session.set_files
                 (<[fileId := File.complete file0]> (Session.files session))
                 session]> (sessions s)) s,
     broadcastToDevices (ready e) (Session.devices session)
                        (new_file (meta_of file0)) (Some U)
     ++ [(U, file_complete_ack fileId)]).
Proof.
  intros Hb Hf. unfold handle_file_complete.
  rewrite (in_session_bound _ _ _ _ _ Hb). rewrite Hf.
  unfold broadcastToSession. by rewrite lookup_insert_eq.
Qed.

Lemma handle_request_file_complete s D c session fileId file buf :
  bound_to s D c session →
  Session.files session !! fileId = Some file →
  File.data file = Some buf →
  handle_request_file D fileId s
  = (s, (D, file_download_start (File.id file) (File.originalName file)
                                (File.size file) (File.mimetype file))
        :: ((λ packet, (D, binary packet))
              <$> download_packets (File.id file) buf)
        ++ [(D, file_download_complete (File.id file))]).
Proof.
  intros Hb Hf Hd. unfold handle_request_file.
  rewrite (in_session_bound _ _ _ _ _ Hb). by rewrite Hf, Hd.
Qed.

Lemma bound_to_update s U c session session' :
  bound_to s U c session →
  bound_to (set_sessions (<[c := session']> (sessions s)) s) U c session'.
Proof.
  intros (Hidx & Hne & Hs). split_and!; [done|done|].
  simpl. by rewrite lookup_insert_eq.
Qed.

Lemma push_all_chunks payloads file0 :
  File.chunks (push_all payloads file0) = File.chunks file0 ++ payloads
  ∧ File.data (push_all payloads file0) = File.data file0
  ∧ meta_of (push_all payloads file0) = meta_of file0.
Proof.
  revert file0. induction payloads as [|p payloads IH]; intros file0; simpl.
  - by rewrite app_nil_r.
  - destruct (IH (File.push_chunk p file0)) as (-> & -> & ->).
    simpl. by rewrite <- app_assoc.
Qed.

Lemma run_upload_frames fuel s U c session fileId file0 chunks :
  bound_to s U c session →
  String.length fileId = 36 →
  Session.files session !! fileId = Some file0 →
  ∃ s1 out1 session1,
    run fuel (upload_frames U fileId chunks) s = Some (s1, out1)
    ∧ bound_to s1 U c session1
    ∧ Session.devices session1 = Session.devices session
    ∧ Session.files session1 !! fileId = Some (push_all chunks.*2 file0).
Proof.
  intros Hb Hlen. revert s session file0 Hb.
  induction chunks as [|[e payload] chunks IH]; intros s session file0 Hb Hf.
  - exists s, [], session. by split_and!.
  - destruct (frame_fileId_exact fileId payload Hlen) as [Hid Hdrop].
    cbn [upload_frames fmap list_fmap run step fst snd].
    rewrite (handleBinaryMessage_stored _ _ _ _ _ file0 Hb);
      [|by rewrite Hid].
    rewrite Hid, Hdrop. cbn [mbind option_bind].
    set (session_a :=
           Session.set_files
             (<[fileId := File.push_chunk payload file0]> (Session.files session))
             session).
    destruct (IH _ session_a (File.push_chunk payload file0)
                 (bound_to_update _ _ _ _ session_a Hb))
      as (s1 & out1 & session1 & Hrun & Hb1 & Hdev & Hf1).
    { simpl. apply lookup_insert_eq. }
    unfold upload_frames in Hrun. rewrite Hrun. simpl.
    by eexists _, _, session1.
Qed.

(** ** Download *)

(** C3, as stated, fails.  A uploads [hello] and completes the file, then
    sends [file_complete] again.  The file is still Complete, but its buffer
    is now empty: a [request_file] from B is answered with
    [file_download_start] and [file_download_complete] and no binary frame
    between them, so the payloads do not add up to the bytes A sent. *)
Lemma round_trip_every_completed_file_counterexample :
  ∃ out_upload file out,
    run 1 tr_twice hub_init = Some (hub_twice, out_upload)
    ∧ (devA, upload_progress fileF 5 5) ∈ out_upload
    ∧ Session.files (session_of hub_twice "AAAAAA") !! fileF = Some file
    ∧ is_Some (File.data file)
    ∧ handleJsonMessage 1 env0 devB (request_file fileF) hub_twice
      = Some (hub_twice, out)
    ∧ out = [ (devB, file_download_start fileF "hi.txt" 5 "text/plain");
              (devB, file_download_complete fileF) ]
    ∧ concat (payloads_of out) = []
    ∧ concat (payloads_of out) ≠ hello.
Proof.
  eexists _, _, _.
  split_and!; [by_computation| |by_computation|by eexists|by_computation
               |reflexivity|reflexivity|by_computation].
  apply list_elem_of_In. vm_compute. tauto.
Qed.

(** C3, amended.  For every completed file in a session, whatever its
    history, a [request_file] from a member [D] of the session makes the
    hub send to [D], and to nobody else, exactly: one
    [file_download_start]; then [ceil (len / 65536)] binary frames, each the
    36 bytes of the file id followed by at most 64 KiB of payload; then one
    [file_download_complete]; the payloads, concatenated in order, are the
    file's stored buffer, of length [len], and the hub is left unchanged.
    That buffer is the bytes the uploader sent when the file is as its
    upload left it: [file_start] (the hub mints the 36-character id
    [uuidv4 e]), binary frames carrying the id and the chunks, one
    [file_complete].  Nothing is promised about the uploaded bytes once a
    further [file_complete] has replaced the buffer. *)
Theorem request_file_serves_stored_bytes fuel s U c session e fileName fileSize
    mimeType (chunks : list (env * list byte)) e' :
  bound_to s U c session →
  String.length (uuidv4 e) = 36 →
  (∃ s1 out1 session1 file,
     run fuel (upload U e fileName fileSize mimeType chunks e') s
     = Some (s1, out1)
     ∧ sessions s1 !! c = Some session1
     ∧ Session.files session1 !! uuidv4 e = Some file
     ∧ File.id file = uuidv4 e
     ∧ File.originalName file = fileName
     ∧ File.size file = fileSize
     ∧ File.mimetype file = mimeType
     ∧ File.data file = Some (concat chunks.*2))
  ∧ ∀ s2 D c2 session2 e2 fileId2 file2 buf2,
      bound_to s2 D c2 session2 →
      Session.files session2 !! fileId2 = Some file2 →
      File.data file2 = Some buf2 →
      String.length (File.id file2) = 36 →
      ∃ packets,
        handleJsonMessage fuel e2 D (request_file fileId2) s2
        = Some (s2,
                (D, file_download_start (File.id file2) (File.originalName file2)
                                        (File.size file2) (File.mimetype file2))
                :: ((λ packet, (D, binary packet)) <$> packets)
                ++ [(D, file_download_complete (File.id file2))])
        ∧ length packets = Js.ceil_div (length buf2) (64 * 1024)
        ∧ Forall (λ packet,
                    take 36 packet = String.list_byte_of_string (File.id file2)
                    ∧ length (drop 36 packet) ≤ 64 * 1024) packets
        ∧ concat (drop 36 <$> packets) = buf2.
Proof.
  intros Hb Hlen. split.
  - set (F := uuidv4 e) in *.
    set (fresh := File.Make F fileName fileSize mimeType (now e) [] 0 U None).
    set (session_a :=
           Session.set_files (<[F := fresh]> (Session.files session)) session).
    pose proof (bound_to_update _ _ _ _ session_a Hb) as Hba.
    destruct (run_upload_frames fuel _ U c session_a F fresh chunks Hba Hlen)
      as (s_b & out_b & session_b & Hrun_b & Hbb & _ & Hfb).
    { simpl. apply lookup_insert_eq. }
    destruct (push_all_chunks chunks.*2 fresh) as (Hchunks & Hdata & Hmeta).
    exists (set_sessions
              (<[c := Session.set_files
                        (<[F := File.complete (push_all chunks.*2 fresh)]>
                           (Session.files session_b)) session_b]>
                 (sessions s_b)) s_b).
    eexists _, _, (File.complete (push_all chunks.*2 fresh)).
    assert (Hfields : File.id (File.complete (push_all chunks.*2 fresh)) = F
              ∧ File.originalName (File.complete (push_all chunks.*2 fresh))
                = fileName
              ∧ File.size (File.complete (push_all chunks.*2 fresh)) = fileSize
              ∧ File.mimetype (File.complete (push_all chunks.*2 fresh))
                = mimeType).
    { unfold meta_of in Hmeta. simpl in Hmeta. by simplify_eq. }
    destruct Hfields as (Hid & Hname & Hsize & Hmime).
    split_and!; [| | |done|done|done|done|].
    + unfold upload. cbn [run step handleJsonMessage].
      unfold handle_file_start. rewrite (in_session_bound _ _ _ _ _ Hb).
      cbn [mbind option_bind]. fold F fresh session_a.
      rewrite run_app, Hrun_b. cbn [mbind option_bind run step handleJsonMessage].
      rewrite (handle_file_complete_stored _ _ _ _ _ _ _ Hbb Hfb).
      reflexivity.
    + simpl. apply lookup_insert_eq.
    + simpl. apply lookup_insert_eq.
    + simpl. by rewrite Hchunks.
  - intros s2 D c2 session2 e2 fileId2 file2 buf2 Hb2 Hf2 Hdata2 Hlen2.
    exists (download_packets (File.id file2) buf2).
    destruct (download_packets_sized_spec chunkSize (File.id file2) buf2
                chunkSize_pos) as (Hn & Hall & Hcat).
    split_and!; [|done| |done].
    + cbn [handleJsonMessage].
      by rewrite (handle_request_file_complete _ _ _ _ _ _ buf2 Hb2 Hf2 Hdata2).
    + rewrite <- (header_full _ Hlen2). exact Hall.
Qed.

Lemma request_file_serves_stored_bytes_witness :
  (∃ s1 out1 session1 file,
     run 1 (upload devA env0 "hi.txt" 5 "text/plain" [(env0, hello)] env0) hub_S1
     = Some (s1, out1)
     ∧ sessions s1 !! "AAAAAA" = Some session1
     ∧ Session.files session1 !! uuidv4 env0 = Some file
     ∧ File.id file = uuidv4 env0
     ∧ File.originalName file = "hi.txt"
     ∧ File.size file = 5%Z
     ∧ File.mimetype file = "text/plain"
     ∧ File.data file = Some (concat [(env0, hello)].*2))
  ∧ ∀ s2 D c2 session2 e2 fileId2 file2 buf2,
      bound_to s2 D c2 session2 →
      Session.files session2 !! fileId2 = Some file2 →
      File.data file2 = Some buf2 →
      String.length (File.id file2) = 36 →
      ∃ packets,
        handleJsonMessage 1 e2 D (request_file fileId2) s2
        = Some (s2,
                (D, file_download_start (File.id file2) (File.originalName file2)
                                        (File.size file2) (File.mimetype file2))
                :: ((λ packet, (D, binary packet)) <$> packets)
                ++ [(D, file_download_complete (File.id file2))])
        ∧ length packets = Js.ceil_div (length buf2) (64 * 1024)
        ∧ Forall (λ packet,
                    take 36 packet = String.list_byte_of_string (File.id file2)
                    ∧ length (drop 36 packet) ≤ 64 * 1024) packets
        ∧ concat (drop 36 <$> packets) = buf2.
Proof.
  apply (request_file_serves_stored_bytes 1 hub_S1 devA "AAAAAA"
           (session_of hub_S1 "AAAAAA") env0 "hi.txt" 5 "text/plain"
           [(env0, hello)] env0).
  - unfold bound_to. split_and!; by_computation.
  - by_computation.
Defined.

(** ** Completion *)

(** After a [file_complete] the file is Complete: it has [data], and its
    chunk list is empty. *)
Lemma file_complete_makes_complete file0 :
  File.data (File.complete file0) = Some (concat (File.chunks file0))
  ∧ File.chunks (File.complete file0) = [].
Proof. done. Qed.

(** C4. A [file_complete] for a file that is already Complete (it has a
    byte buffer, and the chunk list emptied by the first [file_complete]):
    the hub concatenates the empty chunk list, so the stored buffer is
    replaced by the empty buffer; the sender is sent [file_complete_ack]
    again, and every other member of the session whose socket is open is
    sent [new_file] again (and nothing else is sent). *)
Theorem second_file_complete_empties_buffer fuel e s U c session fileId file buf :
  bound_to s U c session →
  Session.files session !! fileId = Some file →
  File.data file = Some buf →
  File.chunks file = [] →
  ∃ s' out session' file',
    handleJsonMessage fuel e U (file_complete fileId) s = Some (s', out)
    ∧ sessions s' !! c = Some session'
    ∧ Session.files session' !! fileId = Some file'
    ∧ File.data file' = Some []
    ∧ frames_to U out = [file_complete_ack fileId]
    ∧ ∀ D, D ≠ U →
        frames_to D out
        = if decide (is_Some (Session.devices session !! D) ∧ ready e D = true)
          then [new_file (meta_of file)] else [].
Proof.
  intros Hb Hf Hdata Hchunks.
  eexists _, _, _, (File.complete file).
  cbn [handleJsonMessage].
  rewrite (handle_file_complete_stored _ _ _ _ _ _ _ Hb Hf).
  split_and!; [reflexivity | simpl; apply lookup_insert_eq
               | simpl; apply lookup_insert_eq | | |].
  - simpl. by rewrite Hchunks.
  - rewrite frames_to_app, frames_to_broadcast, frames_to_cons.
    rewrite decide_False by (by intros (_ & ? & _)).
    by rewrite decide_True.
  - intros D HD.
    rewrite frames_to_app, frames_to_broadcast, frames_to_cons.
    rewrite (decide_False (P := U = D)) by done.
    rewrite app_nil_r.
    destruct (decide (is_Some (Session.devices session !! D) ∧ ready e D = true))
      as [[Hm Hr]|Hno].
    + rewrite decide_True; [done|]. split_and!; [done| |done]. congruence.
    + rewrite decide_False; [done|]. intros (? & _ & ?). by apply Hno.
Qed.

Lemma second_file_complete_empties_buffer_witness :
  ∃ s' out session' file',
    handleJsonMessage 1 env0 devA (file_complete fileF) hub_S2 = Some (s', out)
    ∧ sessions s' !! "AAAAAA" = Some session'
    ∧ Session.files session' !! fileF = Some file'
    ∧ File.data file' = Some []
    ∧ frames_to devA out = [file_complete_ack fileF]
    ∧ ∀ D, D ≠ devA →
        frames_to D out
        = if decide (is_Some (Session.devices (session_of hub_S2 "AAAAAA") !! D)
                     ∧ ready env0 D = true)
          then [new_file (meta_of file_S2)] else [].
Proof.
  apply (second_file_complete_empties_buffer 1 env0 hub_S2 devA "AAAAAA"
           (session_of hub_S2 "AAAAAA") fileF file_S2 hello).
  - unfold bound_to. split_and!; by_computation.
  - by_computation.
  - reflexivity.
  - reflexivity.
Defined.

(** ** Joining *)

(** C6. A [join_session] whose code, once uppercased, is no key of
    [sessions] (or that carries no code at all): the hub sends the one frame
    [session_error] to the sender and does nothing else.  The hub is left
    exactly as it was, so a device that was not registered is still in no
    session and not in [deviceToSession], and no session or file changed;
    the handler has no way to close the socket. *)
Theorem join_unknown_session_replies_error fuel e s D code deviceName deviceType :
  sessions s !! Js.toUpperCase code = None →
  handleJsonMessage fuel e D
    (join_session (code_string code) deviceName deviceType) s
  = Some (s, [(D, session_error
                    "Session not found. Check the code and try again.")])
  ∧ handleJsonMessage fuel e D
      (join_session code_missing deviceName deviceType) s
    = Some (s, [(D, session_error
                      "Session not found. Check the code and try again.")]).
Proof.
  intros Hnone. cbn [handleJsonMessage]. unfold handle_join_session.
  simpl. by rewrite Hnone.
Qed.

Lemma join_unknown_session_replies_error_witness :
  handleJsonMessage 1 env0 devC
    (join_session (code_string "ZZZZZZ") (Some "PC") (Some "windows")) hub_S1
  = Some (hub_S1,
          [(devC,
            session_error "Session not found. Check the code and try again.")])
  ∧ handleJsonMessage 1 env0 devC
      (join_session code_missing (Some "PC") (Some "windows")) hub_S1
    = Some (hub_S1,
            [(devC,
              session_error "Session not found. Check the code and try again.")]).
Proof.
  apply (join_unknown_session_replies_error 1 env0 hub_S1
           devC "ZZZZZZ").
  by_computation.
Defined.

Lemma alphabet_upper_fixed c :
  c ∈ String.list_ascii_of_string chars → Js.upper_ascii c = c.
Proof.
  revert c. apply Forall_forall. vm_compute. repeat constructor.
Qed.

Lemma toUpperCase_case_variant code C :
  Forall (λ c, c ∈ String.list_ascii_of_string chars)
         (String.list_ascii_of_string C) →
  case_variant code C = true →
  Js.toUpperCase code = C.
Proof.
  revert C. induction code as [|a code IH]; intros [|b C] Hall Hcv;
    cbn [case_variant] in Hcv; try done.
  cbn [String.list_ascii_of_string] in Hall.
  apply Forall_cons in Hall as [Hb Hall].
  apply andb_true_iff in Hcv as [Hab Hcv].
  cbn [Js.toUpperCase]. f_equal; [|by apply IH].
  apply orb_true_iff in Hab as [Heq|Hlow].
  - apply Ascii.eqb_eq in Heq as ->. by apply alphabet_upper_fixed.
  - apply andb_true_iff in Hlow as [Hrange Hshift].
    apply andb_true_iff in Hrange as [Hlo Hhi].
    apply Nat.leb_le in Hlo, Hhi. apply Nat.eqb_eq in Hshift.
    unfold Js.upper_ascii. rewrite Hshift.
    replace (97 <=? nat_of_ascii b + 32) with true
      by (symmetry; apply Nat.leb_le; lia).
    replace (nat_of_ascii b + 32 <=? 122) with true
      by (symmetry; apply Nat.leb_le; lia).
    cbn [andb]. replace (nat_of_ascii b + 32 - 32) with (nat_of_ascii b) by lia.
    apply ascii_nat_embedding.
Qed.

(** C10. Joining is case-insensitive.  For a live session with code [C], a
    [join_session] whose [sessionCode] is [C] with any of its letters in
    lower case is uppercased to [C] before the lookup, and succeeds: the
    device is added to the members of that session, [deviceToSession] maps
    it to [C], and the first frame sent is [session_joined], to the sender,
    with the code [C] and the new number of members. *)
Theorem join_is_case_insensitive fuel e s D C session code deviceName deviceType :
  reachable s →
  sessions s !! C = Some session →
  case_variant code C = true →
  ∃ s' out session',
    handleJsonMessage fuel e D
      (join_session (code_string code) deviceName deviceType) s
    = Some (s', out)
    ∧ Js.toUpperCase code = C
    ∧ sessions s' !! C = Some session'
    ∧ Session.devices session'
      = <[D := new_device e D deviceName deviceType]> (Session.devices session)
    ∧ Session.files session' = Session.files session
    ∧ deviceToSession s' !! D = Some C
    ∧ head out
      = Some (D, session_joined C D (size (Session.devices session'))).
Proof.
  intros Hr Hs Hcv.
  destruct (reachable_codes_valid _ _ _ Hr Hs) as [_ Hall].
  pose proof (toUpperCase_case_variant _ _ Hall Hcv) as Hup.
  cbn [handleJsonMessage]. unfold handle_join_session.
  simpl. rewrite Hup, Hs. simpl.
  eexists _, _, _. split_and!; [reflexivity|done| | | | |].
  - simpl. apply lookup_insert_eq.
  - done.
  - done.
  - simpl. apply lookup_insert_eq.
  - done.
Qed.

Lemma join_is_case_insensitive_witness :
  ∃ s' out session',
    handleJsonMessage 1 env0 devB
      (join_session (code_string "aaaaaa") (Some "iPhone") (Some "iphone")) hub_S0
    = Some (s', out)
    ∧ Js.toUpperCase "aaaaaa" = "AAAAAA"
    ∧ sessions s' !! "AAAAAA" = Some session'
    ∧ Session.devices session'
      = <[devB := new_device env0 devB (Some "iPhone") (Some "iphone")]>
          (Session.devices (session_of hub_S0 "AAAAAA"))
    ∧ Session.files session' = Session.files (session_of hub_S0 "AAAAAA")
    ∧ deviceToSession s' !! devB = Some "AAAAAA"
    ∧ head out
      = Some (devB, session_joined "AAAAAA" devB (size (Session.devices session'))).
Proof.
  apply (join_is_case_insensitive 1 env0 hub_S0 devB "AAAAAA"
           (session_of hub_S0 "AAAAAA") "aaaaaa").
  - apply (reachable_step 1 env0
             (on_message devA (create_session (Some "Mac") (Some "mac")))
             hub_init hub_S0
             [(devA, session_created "AAAAAA" devA 1)]).
    + constructor.
    + by_computation.
  - by_computation.
  - by_computation.
Defined.

(** ** Declared size against received bytes *)

(** C1, as stated, fails: a file declared as 5 bytes, of which 3 were
    received, is completed by [file_complete]: it gets a 3-byte buffer and
    the uploader is sent [file_complete_ack]. *)
Lemma complete_validates_size_counterexample :
  ∃ s out file buf,
    run 1 (tr_upload_of hel ++ [(env0, on_message devA (file_complete fileF))])
        hub_init
    = Some (s, out)
    ∧ Session.files (session_of s "AAAAAA") !! fileF = Some file
    ∧ File.data file = Some buf
    ∧ File.size file = 5%Z
    ∧ length buf = 3
    ∧ (devA, file_complete_ack fileF) ∈ out.
Proof.
  eexists _, _, _, _.
  split_and!; [by_computation | by_computation | reflexivity | reflexivity
               | reflexivity |].
  apply list_elem_of_In. vm_compute. tauto.
Qed.

(** C1, amended.  [file_complete] checks nothing about sizes.  For an Open
    file of the sender's session it always completes the file: the stored
    buffer is the concatenation of the chunks received, its length is
    [receivedSize] (which need not be the declared [size], left as it was),
    the chunk list is emptied, and the sender is sent [file_complete_ack]. *)
Theorem file_complete_stores_received_bytes fuel e s U c session fileId file0 :
  reachable s →
  bound_to s U c session →
  Session.files session !! fileId = Some file0 →
  File.data file0 = None →
  ∃ s' out session' file buf,
    handleJsonMessage fuel e U (file_complete fileId) s = Some (s', out)
    ∧ sessions s' !! c = Some session'
    ∧ Session.files session' !! fileId = Some file
    ∧ File.data file = Some buf
    ∧ buf = concat (File.chunks file0)
    ∧ Z.of_nat (length buf) = File.receivedSize file0
    ∧ File.size file = File.size file0
    ∧ File.chunks file = []
    ∧ frames_to U out = [file_complete_ack fileId].
Proof.
  intros Hr Hb Hf Hopen.
  pose proof Hb as (_ & _ & Hs).
  pose proof (reachable_open_counted _ _ _ _ _ Hr Hs Hf Hopen) as Hcount.
  eexists _, _, _, (File.complete file0), _.
  cbn [handleJsonMessage].
  rewrite (handle_file_complete_stored _ _ _ _ _ _ _ Hb Hf).
  split_and!; [reflexivity | simpl; apply lookup_insert_eq
               | simpl; apply lookup_insert_eq | reflexivity | reflexivity
               | by rewrite Hcount | reflexivity | reflexivity |].
  rewrite frames_to_app, frames_to_broadcast, frames_to_cons.
  rewrite decide_False by (by intros (_ & ? & _)).
  by rewrite decide_True.
Qed.

Lemma file_complete_stores_received_bytes_witness :
  ∃ s' out session' file buf,
    handleJsonMessage 1 env0 devA (file_complete fileF) hub_short
    = Some (s', out)
    ∧ sessions s' !! "AAAAAA" = Some session'
    ∧ Session.files session' !! fileF = Some file
    ∧ File.data file = Some buf
    ∧ buf = concat (File.chunks
                      file_short)
    ∧ Z.of_nat (length buf)
      = File.receivedSize
          file_short
    ∧ File.size file
      = File.size file_short
    ∧ File.chunks file = []
    ∧ frames_to devA out = [file_complete_ack fileF].
Proof.
  apply (file_complete_stores_received_bytes 1 env0 hub_short devA "AAAAAA"
           (session_of hub_short "AAAAAA") fileF
           file_short).
  - apply (run_reachable 1 (tr_upload_of hel) hub_init hub_short
             (default [] (snd <$> run 1 (tr_upload_of hel) hub_init)));
      [constructor | by_computation].
  - unfold bound_to. split_and!; by_computation.
  - by_computation.
  - reflexivity.
Defined.

(** C2, as stated, fails: a file declared as 5 bytes receives an 11-byte
    chunk; the chunk is stored, and the Open file has [receivedSize] 11. *)
Lemma oversize_chunk_dropped_counterexample :
  ∃ s out file,
    run 1 (tr_upload_of hello_world) hub_init = Some (s, out)
    ∧ Session.files (session_of s "AAAAAA") !! fileF = Some file
    ∧ File.data file = None
    ∧ File.size file = 5%Z
    ∧ File.chunks file = [hello_world]
    ∧ File.receivedSize file = 11%Z
    ∧ (File.receivedSize file > File.size file)%Z.
Proof.
  eexists _, _, _.
  split_and!; [by_computation | by_computation | reflexivity | reflexivity
               | reflexivity | reflexivity | by_computation].
Qed.

(** C2, amended.  A binary frame from a member of a session, whose first 36
    bytes are the id of a file of that session, is always stored: the rest
    of the frame is appended to the chunk list and [receivedSize] grows by
    its length, whatever the declared size; no chunk is dropped for going
    over [size].  What holds of every Open file, before and after, is that
    [receivedSize] is the number of bytes in its chunk list. *)
Theorem binary_chunk_always_stored s U c session data file0 :
  reachable s →
  bound_to s U c session →
  Session.files session !! frame_fileId data = Some file0 →
  ∃ s' session' file,
    handleBinaryMessage U data s
    = (s', [(U, upload_progress (frame_fileId data)
                  (File.receivedSize file) (File.size file0))])
    ∧ sessions s' !! c = Some session'
    ∧ Session.files session' !! frame_fileId data = Some file
    ∧ File.chunks file = File.chunks file0 ++ [drop 36 data]
    ∧ File.receivedSize file
      = (File.receivedSize file0 + Z.of_nat (length (drop 36 data)))%Z
    ∧ File.size file = File.size file0
    ∧ File.data file = File.data file0
    ∧ (File.data file0 = None → counted file0 ∧ counted file).
Proof.
  intros Hr Hb Hf.
  pose proof Hb as (_ & _ & Hs).
  eexists _, _, (File.push_chunk (drop 36 data) file0).
  rewrite (handleBinaryMessage_stored _ _ _ _ _ _ Hb Hf).
  split_and!; [reflexivity | simpl; apply lookup_insert_eq
               | simpl; apply lookup_insert_eq | reflexivity | reflexivity
               | reflexivity | reflexivity |].
  intros Hopen.
  pose proof (reachable_open_counted _ _ _ _ _ Hr Hs Hf Hopen) as Hcount.
  split; [done|]. unfold counted in *. simpl.
  rewrite Hcount, concat_app, length_app. simpl. rewrite app_nil_r. lia.
Qed.

Lemma binary_chunk_always_stored_witness :
  ∃ s' session' file,
    handleBinaryMessage devA (String.list_byte_of_string fileF ++ hello_world)
                        hub_short
    = (s', [(devA, upload_progress
                     (frame_fileId (String.list_byte_of_string fileF ++ hello_world))
                     (File.receivedSize file) 5)])
    ∧ sessions s' !! "AAAAAA" = Some session'
    ∧ Session.files session'
        !! frame_fileId (String.list_byte_of_string fileF ++ hello_world)
      = Some file
    ∧ File.chunks file
      = [hel] ++ [drop 36 (String.list_byte_of_string fileF ++ hello_world)]
    ∧ File.receivedSize file
      = (3 + Z.of_nat
               (length (drop 36 (String.list_byte_of_string fileF ++ hello_world))))%Z
    ∧ File.size file = 5%Z
    ∧ File.data file = None
    ∧ (@None (list byte) = None →
       counted file_short
       ∧ counted file).
Proof.
  apply (binary_chunk_always_stored hub_short devA "AAAAAA"
           (session_of hub_short "AAAAAA")
           (String.list_byte_of_string fileF ++ hello_world)
           file_short).
  - apply (run_reachable 1 (tr_upload_of hel) hub_init hub_short
             (default [] (snd <$> run 1 (tr_upload_of hel) hub_init)));
      [constructor | by_computation].
  - unfold bound_to. split_and!; by_computation.
  - by_computation.
Defined.

(** ** The file id of a binary frame *)



Example strip_trailing_spaces_examples :
  strip_trailing_spaces "ab  c   " = "ab  c"
  ∧ strip_trailing_spaces "   " = ""
  ∧ strip_trailing_spaces fileF = fileF.
Proof. split_and!; reflexivity. Qed.





Lemma reachable_uuid_reachable s : reachable_uuid s → reachable s.
Proof.
  induction 1 as [|fuel e ev s s' out _ IH _ Hstep]; [constructor|].
  by eapply reachable_step.
Qed.





(** ** The janitor *)

Section filter_bind.
Context {X : Type} (P : frame → Prop) `{!∀ fr, Decision (P fr)}.
Implicit Types (l : list (string * X)) (g : string * X → list frame).

Lemma filter_bind_nil l g :
  (∀ kv, kv ∈ l → filter P (g kv) = []) → filter P (l ≫= g) = [].
Proof.
  induction l as [|kv l IH]; intros Hall; [done|].
  rewrite bind_cons, filter_app, Hall, IH; [done| |left].
  intros kv' Hin. apply Hall. by right.
Qed.

(** Over a list with distinct keys, if only the entry of [k] contributes,
    the whole contributes what that entry does. *)
Lemma filter_bind_unique l g k x :
  NoDup l.*1 →
  (k, x) ∈ l →
  (∀ kv, kv ∈ l → kv.1 ≠ k → filter P (g kv) = []) →
  filter P (l ≫= g) = filter P (g (k, x)).
Proof.
  induction l as [|[k' x'] l IH]; intros Hnd Hin Hother.
  { by apply elem_of_nil in Hin. }
  rewrite fmap_cons in Hnd. apply NoDup_cons in Hnd as [Hfresh Hnd].
  rewrite bind_cons, filter_app.
  apply elem_of_cons in Hin as [Heq|Hin].
  - simplify_eq. rewrite filter_bind_nil; [by rewrite app_nil_r|].
    intros kv Hkv. apply Hother; [by right|].
    intros Hk. apply Hfresh. simpl. rewrite <- Hk.
    apply list_elem_of_fmap. by exists kv.
  - rewrite (Hother (k', x')); [|by left|].
    + rewrite IH; [done|done|done|].
      intros kv Hkv. apply Hother. by right.
    + simpl. intros Hk. apply Hfresh. simpl. rewrite Hk.
      apply list_elem_of_fmap. by exists (k, x).
Qed.

End filter_bind.

(** What the janitor sends to [D] for one session: a [file_removed] for
    each stale file, if [D] is a member with an open socket. *)
Lemma frames_to_janitor_sends rdy cutoff session D :
  frames_to D (janitor_sends rdy cutoff session)
  = map_to_list (filter (stale cutoff) (Session.files session)) ≫=
      (λ kv, if decide (is_Some (Session.devices session !! D) ∧ rdy D = true)
             then [file_removed kv.1] else []).
Proof.
  unfold janitor_sends. rewrite frames_to_bind.
  apply list_bind_ext; [|done]. intros kv.
  rewrite frames_to_broadcast.
  destruct (decide (is_Some (Session.devices session !! D) ∧ rdy D = true))
    as [[? ?]|Hno].
  - by rewrite decide_True.
  - rewrite decide_False; [done|]. intros (? & _ & ?). by apply Hno.
Qed.

(** C7. A janitor tick at time [now].  Every file whose [uploadedAt] is
    older than [now - 30 min] is gone from the store of its session
    afterwards (the session still there or not).  During the tick the hub
    sends, for such a file, exactly one [file_removed] carrying its id to
    every member of the file's session whose socket is open; file ids being
    unique across sessions, that is the only [file_removed] for this id
    the member is sent. *)
Theorem janitor_expires_stale_files e s c session fileId file :
  sessions s !! c = Some session →
  Session.files session !! fileId = Some file →
  (File.uploadedAt file < now e - 30 * 60 * 1000)%Z →
  ∃ s' out,
    step 0 e janitor_tick s = Some (s', out)
    ∧ (∀ session', sessions s' !! c = Some session' →
                   Session.files session' !! fileId = None)
    ∧ ((∀ c2 session2, c2 ≠ c → sessions s !! c2 = Some session2 →
                       Session.files session2 !! fileId = None) →
       ∀ D, is_Some (Session.devices session !! D) → ready e D = true →
            filter (is_file_removed fileId) (frames_to D out)
            = [file_removed fileId]).
Proof.
  intros Hs Hf Hold.
  eexists _, _. split_and!; [reflexivity| |].
  - intros session' Hs'. simpl in Hs'.
    apply lookup_omap_Some in Hs' as (session0 & Hj & Hs0).
    rewrite Hs in Hs0. simplify_eq.
    unfold janitor_session in Hj. destruct (_ && _); simplify_eq/=.
    unfold janitor_files. apply map_lookup_filter_None. right.
    intros file0 Hf0 Hkeep. rewrite Hf in Hf0. simplify_eq.
    apply Hkeep. exact Hold.
  - intros Huniq D Hmember Hready. simpl.
    rewrite frames_to_bind.
    rewrite (filter_bind_unique _ _ _ c session).
    + simpl. rewrite frames_to_janitor_sends.
      rewrite (filter_bind_unique _ _ _ fileId file).
      * simpl. rewrite decide_True by done.
        rewrite filter_cons, decide_True by done. done.
      * apply NoDup_fst_map_to_list.
      * apply elem_of_map_to_list. by apply map_lookup_filter_Some.
      * intros [k f] _ Hk. simpl in *. destruct (decide _); [|done].
        rewrite filter_cons, decide_False; [done|].
        unfold is_file_removed. congruence.
    + apply NoDup_fst_map_to_list.
    + by apply elem_of_map_to_list.
    + intros [c2 session2] Hin Hne. simpl in *.
      apply elem_of_map_to_list in Hin.
      rewrite frames_to_janitor_sends.
      apply filter_bind_nil. intros [k f] Hkf.
      apply elem_of_map_to_list, map_lookup_filter_Some in Hkf as [Hkf _].
      simpl. destruct (decide _); [|done].
      rewrite filter_cons, decide_False; [done|].
      unfold is_file_removed. intros [= ->].
      rewrite (Huniq c2 session2 Hne Hin) in Hkf. done.
Qed.

Lemma janitor_expires_stale_files_witness :
  ∃ s' out,
    step 0 env_31min janitor_tick hub_S2 = Some (s', out)
    ∧ (∀ session', sessions s' !! "AAAAAA" = Some session' →
                   Session.files session' !! fileF = None)
    ∧ ((∀ c2 session2, c2 ≠ "AAAAAA" → sessions hub_S2 !! c2 = Some session2 →
                       Session.files session2 !! fileF = None) →
       ∀ D, is_Some (Session.devices (session_of hub_S2 "AAAAAA") !! D) →
            ready env_31min D = true →
            filter (is_file_removed fileF) (frames_to D out)
            = [file_removed fileF]).
Proof.
  apply (janitor_expires_stale_files env_31min hub_S2 "AAAAAA"
           (session_of hub_S2 "AAAAAA") fileF file_S2).
  - by_computation.
  - by_computation.
  - by_computation.
Defined.

(** ** Creating a session *)

(** C8. Session codes.  In every reachable state each key of [sessions] is
    six characters of the 32-symbol alphabet; [sessions] being a map, no
    two sessions have the same key.  [create_session] generates codes until
    one is not a key of [sessions]: when it returns, every earlier attempt
    was a live code, the code it registers was not, the sessions already
    there are all kept and there is exactly one more.  And it does return
    as soon as some attempt yields a code that is not live. *)
Theorem session_codes_are_fresh fuel e s D deviceName deviceType :
  reachable s →
  (∀ c session, sessions s !! c = Some session → valid_code c)
  ∧ (∀ s' out,
       handleJsonMessage fuel e D (create_session deviceName deviceType) s
       = Some (s', out) →
       ∃ k code session',
         code = generateSessionCode (random e) (6 * k)
         ∧ (∀ j, j < k →
                 is_Some (sessions s !! generateSessionCode (random e) (6 * j)))
         ∧ sessions s !! code = None
         ∧ valid_code code
         ∧ sessions s' = <[code := session']> (sessions s)
         ∧ (∀ c session, sessions s !! c = Some session →
                         sessions s' !! c = Some session)
         ∧ size (sessions s') = S (size (sessions s)))
  ∧ (∀ k,
       (∀ j, j < k →
             is_Some (sessions s !! generateSessionCode (random e) (6 * j))) →
       sessions s !! generateSessionCode (random e) (6 * k) = None →
       k < fuel →
       is_Some (handleJsonMessage fuel e D
                  (create_session deviceName deviceType) s)).
Proof.
  intros Hr. split_and!.
  - intros c session. by apply reachable_codes_valid.
  - intros s' out Hcreate. cbn [handleJsonMessage] in Hcreate.
    unfold handle_create_session in Hcreate.
    destruct (mintSessionCode fuel (random e) 0 (sessions s)) as [code|] eqn:Hm;
      simplify_eq/=.
    apply mintSessionCode_Some in Hm as (k & _ & Hcode & Hfree & Hbusy).
    eexists k, code, _.
    split_and!; [done|done|done| |reflexivity| |].
    + rewrite Hcode. apply generateSessionCode_valid.
    + intros c session Hc. rewrite lookup_insert_ne; [done|]. congruence.
    + by apply map_size_insert_None.
  - intros k Hbusy Hfree Hfuel. cbn [handleJsonMessage].
    unfold handle_create_session.
    rewrite (mintSessionCode_terminates fuel (random e) 0 (sessions s) k);
      [by eexists|done|done|done].
Qed.

(** With AAAAAA live, the first attempt collides and the loop goes round
    once more; cut after one attempt, the model has no result. *)
Example create_session_retries :
  mintSessionCode 2 (random env_retry) 0 (sessions hub_S1) = Some "SSSSSS"
  ∧ mintSessionCode 1 (random env_retry) 0 (sessions hub_S1) = None
  ∧ (snd <$> handleJsonMessage 2 env_retry devC
               (create_session (Some "PC") None) hub_S1)
    = Some [(devC, session_created "SSSSSS" devC 1)].
Proof. split_and!; by_computation. Qed.

Lemma session_codes_are_fresh_witness :
  (∀ c session, sessions hub_S1 !! c = Some session → valid_code c)
  ∧ (∀ s' out,
       handleJsonMessage 2 env_retry devC (create_session (Some "PC") None) hub_S1
       = Some (s', out) →
       ∃ k code session',
         code = generateSessionCode (random env_retry) (6 * k)
         ∧ (∀ j, j < k →
                 is_Some (sessions hub_S1
                            !! generateSessionCode (random env_retry) (6 * j)))
         ∧ sessions hub_S1 !! code = None
         ∧ valid_code code
         ∧ sessions s' = <[code := session']> (sessions hub_S1)
         ∧ (∀ c session, sessions hub_S1 !! c = Some session →
                         sessions s' !! c = Some session)
         ∧ size (sessions s') = S (size (sessions hub_S1)))
  ∧ (∀ k,
       (∀ j, j < k →
             is_Some (sessions hub_S1
                        !! generateSessionCode (random env_retry) (6 * j))) →
       sessions hub_S1 !! generateSessionCode (random env_retry) (6 * k) = None →
       k < 2 →
       is_Some (handleJsonMessage 2 env_retry devC
                  (create_session (Some "PC") None) hub_S1)).
Proof.
  apply (session_codes_are_fresh 2 env_retry hub_S1 devC (Some "PC") None).
  apply (run_reachable 1 tr_S1 hub_init hub_S1
           (default [] (snd <$> run 1 tr_S1 hub_init)));
    [constructor | by_computation].
Defined.

(** ** Deleting a file *)

Lemma step_absent fuel e ev s s' out c fileId :
  ¬ mints fileId (e, ev) →
  step fuel e ev s = Some (s', out) →
  absent c fileId s → absent c fileId s'.
Proof.
  intros Hmint Hstep Habs session' Hs'.
  destruct (Session.files session' !! fileId) as [file'|] eqn:Hf; [|done].
  exfalso.
  assert (Hold : sessions s !! c ≫= (λ session, Session.files session !! fileId)
                 = None).
  { destruct (sessions s !! c) as [session|] eqn:Hs; [|done]. by apply Habs. }
  destruct (step_files _ _ _ _ _ _ _ _ _ _ Hstep Hs' Hf)
    as [file1 Hkept | d fileName fileSize mimeType Hev Hid | file0 chunk Hp
        | file0 Hc]; try congruence.
  apply Hmint. unfold mints. simpl. by rewrite Hev.
Qed.

Lemma run_absent fuel tr s s' out c fileId :
  Forall (λ x, ¬ mints fileId x) tr →
  run fuel tr s = Some (s', out) →
  absent c fileId s → absent c fileId s'.
Proof.
  revert s out. induction tr as [|[e ev] tr IH]; intros s out Hall Hrun Habs;
    simpl in Hrun.
  - by simplify_eq.
  - apply Forall_cons in Hall as [Hhead Hall].
    destruct (step fuel e ev s) as [[s1 out1]|] eqn:Hstep; simplify_eq/=.
    destruct (run fuel tr s1) as [[s2 out2]|] eqn:Hrest; simplify_eq/=.
    eapply IH; [done|done|]. by eapply step_absent.
Qed.

(** C9. After a [delete_file] for a file of the sender's session, the file
    is gone from the store of that session, and every member with an open
    socket is sent [file_removed].  From then on, whatever the hub handles
    next short of a [file_start] that [uuidv4] answers with this same id, a
    [request_file] for the id from any member of the session is answered
    with no frame at all, and changes nothing. *)
Theorem deleted_file_is_not_served fuel e s U c session fileId :
  bound_to s U c session →
  is_Some (Session.files session !! fileId) →
  ∃ s' out,
    handleJsonMessage fuel e U (delete_file fileId) s = Some (s', out)
    ∧ (∀ session', sessions s' !! c = Some session' →
                   Session.files session' !! fileId = None)
    ∧ (∀ D, frames_to D out
            = if decide (is_Some (Session.devices session !! D)
                         ∧ ready e D = true)
              then [file_removed fileId] else [])
    ∧ ∀ tr s'' out'' D session'' e'',
        Forall (λ x, ¬ mints fileId x) tr →
        run fuel tr s' = Some (s'', out'') →
        bound_to s'' D c session'' →
        handleJsonMessage fuel e'' D (request_file fileId) s'' = Some (s'', []).
Proof.
  intros Hb [file Hf].
  pose proof Hb as (_ & _ & Hs).
  eexists _, _. cbn [handleJsonMessage]. unfold handle_delete_file.
  rewrite (in_session_bound _ _ _ _ _ Hb), Hf.
  assert (Habs : absent c fileId
            (set_sessions
               (<[c := Session.set_files (delete fileId (Session.files session))
                                         session]> (sessions s)) s)).
  { intros session' Hs'. simpl in Hs'. rewrite lookup_insert_eq in Hs'.
    simplify_eq/=. apply lookup_delete_eq. }
  split_and!; [reflexivity|exact Habs| |].
  - intros D. rewrite (frames_to_broadcastToSession _ _ _ _ _ _ _
                         (lookup_insert_eq _ _ _)).
    simpl.
    destruct (decide (is_Some (Session.devices session !! D) ∧ ready e D = true))
      as [[? ?]|Hno].
    + by rewrite decide_True.
    + rewrite decide_False; [done|]. intros (? & _ & ?). by apply Hno.
  - intros tr s'' out'' D session'' e'' Hall Hrun Hb''.
    pose proof (run_absent _ _ _ _ _ _ _ Hall Hrun Habs) as Habs''.
    pose proof Hb'' as (_ & _ & Hs'').
    cbn [handleJsonMessage]. unfold handle_request_file.
    rewrite (in_session_bound _ _ _ _ _ Hb'').
    by rewrite (Habs'' _ Hs'').
Qed.

Lemma deleted_file_is_not_served_witness :
  ∃ s' out,
    handleJsonMessage 1 env0 devA (delete_file fileF) hub_S2 = Some (s', out)
    ∧ (∀ session', sessions s' !! "AAAAAA" = Some session' →
                   Session.files session' !! fileF = None)
    ∧ (∀ D, frames_to D out
            = if decide (is_Some (Session.devices (session_of hub_S2 "AAAAAA") !! D)
                         ∧ ready env0 D = true)
              then [file_removed fileF] else [])
    ∧ ∀ tr s'' out'' D session'' e'',
        Forall (λ x, ¬ mints fileF x) tr →
        run 1 tr s' = Some (s'', out'') →
        bound_to s'' D "AAAAAA" session'' →
        handleJsonMessage 1 e'' D (request_file fileF) s'' = Some (s'', []).
Proof.
  apply (deleted_file_is_not_served 1 env0 hub_S2 devA "AAAAAA"
           (session_of hub_S2 "AAAAAA") fileF).
  - unfold bound_to. split_and!; by_computation.
  - exists file_S2. by_computation.
Defined.

(** * Further properties of the hub *)

(** ** Membership *)

Lemma map_size_lookup_ne_0 {V} (m : gmap string V) k :
  is_Some (m !! k) → size m ≠ 0.
Proof.
  intros [v Hk] Hsize. apply map_size_empty_iff in Hsize. subst m.
  by rewrite lookup_empty in Hk.
Qed.

Lemma janitor_session_members cutoff session :
  size (Session.devices session) ≠ 0 →
  janitor_session cutoff session
  = Some (Session.set_files (janitor_files cutoff session) session).
Proof.
  intros Hsize. unfold janitor_session.
  destruct (Nat.eqb_spec (size (Session.devices session)) 0); [done|].
  done.
Qed.

Lemma step_index_listed fuel e ev s s' out :
  step fuel e ev s = Some (s', out) → index_listed s → index_listed s'.
Proof.
  intros Hstep Hinv d c Hidx.
  destruct ev as [D m | D data | D | code | ]; simpl in Hstep.
  - destruct m as [n t | code n t | fileName fileSize mimeType | fid | fid | fid | | ];
      simpl in Hstep.
    + unfold handle_create_session in Hstep.
      destruct (mintSessionCode fuel (random e) 0 (sessions s)) as [code|] eqn:Hm;
        simplify_eq/=.
      apply mintSessionCode_Some in Hm as (_ & _ & _ & Hfree & _).
      destruct (decide (D = d)) as [->|Hne].
      * rewrite lookup_insert_eq in Hidx. simplify_eq.
        eexists. rewrite lookup_insert_eq. split; [done|]. simpl.
        rewrite lookup_singleton_eq. by eexists.
      * rewrite lookup_insert_ne in Hidx by done.
        destruct (Hinv _ _ Hidx) as (session & Hs & Hd).
        exists session. split; [|done].
        rewrite lookup_insert_ne; [done|]. congruence.
    + unfold handle_join_session in Hstep.
      destruct code as [|code|]; simplify_eq/=; eauto.
      destruct (sessions s !! Js.toUpperCase code) as [session|] eqn:Hs;
        simplify_eq/=; eauto.
      destruct (decide (D = d)) as [->|Hne].
      * rewrite lookup_insert_eq in Hidx. simplify_eq.
        eexists. rewrite lookup_insert_eq. split; [done|]. simpl.
        rewrite lookup_insert_eq. by eexists.
      * rewrite lookup_insert_ne in Hidx by done.
        destruct (Hinv _ _ Hidx) as (session0 & Hs0 & Hd).
        destruct (decide (Js.toUpperCase code = c)) as [<-|Hnc].
        -- eexists. rewrite lookup_insert_eq. split; [done|]. simpl.
           rewrite lookup_insert_ne by done. congruence.
        -- exists session0. by rewrite lookup_insert_ne.
    + unfold handle_file_start in Hstep.
      split_in_session Hstep; simplify_eq/=; eauto.
      destruct Hbound as (_ & _ & Hs).
      destruct (Hinv _ _ Hidx) as (session & Hs1 & Hd).
      destruct (decide (c0 = c)) as [->|Hne].
      * eexists. rewrite lookup_insert_eq. split; [done|]. simpl. congruence.
      * exists session. by rewrite lookup_insert_ne.
    + unfold handle_file_complete in Hstep.
      split_in_session Hstep; simplify_eq/=; eauto.
      destruct Hbound as (_ & _ & Hs).
      destruct (Session.files session0 !! fid) as [file0|]; simplify_eq/=; eauto.
      destruct (Hinv _ _ Hidx) as (session & Hs1 & Hd).
      destruct (decide (c0 = c)) as [->|Hne].
      * eexists. rewrite lookup_insert_eq. split; [done|]. simpl. congruence.
      * exists session. by rewrite lookup_insert_ne.
    + unfold handle_request_file in Hstep.
      split_in_session Hstep; simplify_eq/=; eauto.
      destruct (Session.files session0 !! fid) as [file0|];
        [destruct (File.data file0)|]; simplify_eq/=; eauto.
    + unfold handle_delete_file in Hstep.
      split_in_session Hstep; simplify_eq/=; eauto.
      destruct Hbound as (_ & _ & Hs).
      destruct (Session.files session0 !! fid) as [file0|]; simplify_eq/=; eauto.
      destruct (Hinv _ _ Hidx) as (session & Hs1 & Hd).
      destruct (decide (c0 = c)) as [->|Hne].
      * eexists. rewrite lookup_insert_eq. split; [done|]. simpl. congruence.
      * exists session. by rewrite lookup_insert_ne.
    + simplify_eq/=; eauto.
    + simplify_eq/=; eauto.
  - unfold handleBinaryMessage in Hstep.
    split_in_session Hstep; simplify_eq/=; eauto.
    destruct Hbound as (_ & _ & Hs).
    destruct (Session.files session0 !! frame_fileId data) as [file0|];
      simplify_eq/=; eauto.
    destruct (Hinv _ _ Hidx) as (session & Hs1 & Hd).
    destruct (decide (c0 = c)) as [->|Hne].
    + eexists. rewrite lookup_insert_eq. split; [done|]. simpl. congruence.
    + exists session. by rewrite lookup_insert_ne.
  - unfold handle_close in Hstep.
    split_in_session Hstep; simplify_eq/=.
    + apply lookup_delete_Some in Hidx as [_ Hidx]. eauto.
    + apply lookup_delete_Some in Hidx as [Hne Hidx].
      destruct Hbound as (_ & _ & Hs).
      destruct (Hinv _ _ Hidx) as (session & Hs1 & Hd).
      destruct (decide (c0 = c)) as [->|Hnc].
      * eexists. rewrite lookup_insert_eq. split; [done|]. simpl.
        rewrite lookup_delete_ne by done. congruence.
      * exists session. by rewrite lookup_insert_ne.
  - unfold handle_empty_session_timeout in Hstep.
    destruct (sessions s !! code) as [cur|] eqn:Hcur; simplify_eq/=; eauto.
    destruct (Nat.eqb_spec (size (Session.devices cur)) 0) as [Hsize|Hsize];
      simplify_eq/=; eauto.
    destruct (Hinv _ _ Hidx) as (session & Hs1 & Hd).
    exists session. split; [|done].
    rewrite lookup_delete_ne; [done|]. intros ->.
    rewrite Hcur in Hs1. simplify_eq.
    by apply (map_size_lookup_ne_0 _ _ Hd).
  - unfold janitor in Hstep. simplify_eq/=.
    destruct (Hinv _ _ Hidx) as (session & Hs1 & Hd).
    eexists. rewrite lookup_omap, Hs1. simpl.
    rewrite janitor_session_members by (by eapply map_size_lookup_ne_0).
    done.
Qed.

(** Where a device found in a member list after a step comes from. *)
Lemma step_devices fuel e ev s s' out c session' k dev :
  step fuel e ev s = Some (s', out) →
  sessions s' !! c = Some session' →
  Session.devices session' !! k = Some dev →
  (∃ session, sessions s !! c = Some session
              ∧ Session.devices session !! k = Some dev)
  ∨ (∃ deviceName deviceType, dev = new_device e k deviceName deviceType).
Proof.
  intros Hstep Hc Hk.
  destruct ev as [D m | D data | D | code | ]; simpl in Hstep.
  - destruct m as [n t | code n t | fileName fileSize mimeType | fid | fid | fid | | ];
      simpl in Hstep.
    + unfold handle_create_session in Hstep.
      destruct (mintSessionCode fuel (random e) 0 (sessions s)) as [code|];
        simplify_eq/=.
      destruct (decide (code = c)) as [->|Hne].
      * rewrite lookup_insert_eq in Hc. simplify_eq/=.
        apply lookup_singleton_Some in Hk as [<- <-]. eauto.
      * rewrite lookup_insert_ne in Hc by done. eauto.
    + unfold handle_join_session in Hstep.
      destruct code as [|code|]; simplify_eq/=; eauto.
      destruct (sessions s !! Js.toUpperCase code) as [session|] eqn:Hs;
        simplify_eq/=; eauto.
      destruct (decide (Js.toUpperCase code = c)) as [<-|Hne].
      * rewrite lookup_insert_eq in Hc. simplify_eq/=.
        apply lookup_insert_Some in Hk as [[<- <-]|[_ Hk]]; eauto.
      * rewrite lookup_insert_ne in Hc by done. eauto.
    + unfold handle_file_start in Hstep.
      split_in_session Hstep; simplify_eq/=; eauto.
      destruct Hbound as (_ & _ & Hs).
      destruct (decide (c0 = c)) as [->|Hne].
      * rewrite lookup_insert_eq in Hc. simplify_eq/=. eauto.
      * rewrite lookup_insert_ne in Hc by done. eauto.
    + unfold handle_file_complete in Hstep.
      split_in_session Hstep; simplify_eq/=; eauto.
      destruct Hbound as (_ & _ & Hs).
      destruct (Session.files session0 !! fid) as [file0|]; simplify_eq/=; eauto.
      destruct (decide (c0 = c)) as [->|Hne].
      * rewrite lookup_insert_eq in Hc. simplify_eq/=. eauto.
      * rewrite lookup_insert_ne in Hc by done. eauto.
    + unfold handle_request_file in Hstep.
      split_in_session Hstep; simplify_eq/=; eauto.
      destruct (Session.files session0 !! fid) as [file0|];
        [destruct (File.data file0)|]; simplify_eq/=; eauto.
    + unfold handle_delete_file in Hstep.
      split_in_session Hstep; simplify_eq/=; eauto.
      destruct Hbound as (_ & _ & Hs).
      destruct (Session.files session0 !! fid) as [file0|]; simplify_eq/=; eauto.
      destruct (decide (c0 = c)) as [->|Hne].
      * rewrite lookup_insert_eq in Hc. simplify_eq/=. eauto.
      * rewrite lookup_insert_ne in Hc by done. eauto.
    + simplify_eq/=; eauto.
    + simplify_eq/=; eauto.
  - unfold handleBinaryMessage in Hstep.
    split_in_session Hstep; simplify_eq/=; eauto.
    destruct Hbound as (_ & _ & Hs).
    destruct (Session.files session0 !! frame_fileId data) as [file0|];
      simplify_eq/=; eauto.
    destruct (decide (c0 = c)) as [->|Hne].
    + rewrite lookup_insert_eq in Hc. simplify_eq/=. eauto.
    + rewrite lookup_insert_ne in Hc by done. eauto.
  - unfold handle_close in Hstep.
    split_in_session Hstep; simplify_eq/=; eauto.
    destruct Hbound as (_ & _ & Hs).
    destruct (decide (c0 = c)) as [->|Hne].
    + rewrite lookup_insert_eq in Hc. simplify_eq/=.
      apply lookup_delete_Some in Hk as [_ Hk]. eauto.
    + rewrite lookup_insert_ne in Hc by done. eauto.
  - unfold handle_empty_session_timeout in Hstep.
    destruct (sessions s !! code) as [cur|] eqn:Hcur; simplify_eq/=; eauto.
    destruct (size (Session.devices cur) =? 0); simplify_eq/=; eauto.
    apply lookup_delete_Some in Hc as [_ Hc]. eauto.
  - unfold janitor in Hstep. simplify_eq/=.
    apply lookup_omap_Some in Hc as (session & Hj & Hs).
    unfold janitor_session in Hj.
    destruct (_ && _); simplify_eq/=. eauto.
Qed.

Lemma reachable_index_listed s : reachable s → index_listed s.
Proof.
  induction 1 as [|fuel e ev s s' out Hr IH Hstep].
  - intros d c Hidx. simpl in Hidx. by rewrite lookup_empty in Hidx.
  - by eapply step_index_listed.
Qed.

(** X1. In every reachable state, a device of [deviceToSession] is mapped
    to a live session that lists it among its members: the guards that
    open each file handler never fail for a registered device. *)
Theorem registered_device_is_member s deviceId sessionCode :
  reachable s →
  deviceToSession s !! deviceId = Some sessionCode →
  ∃ session,
    bound_to s deviceId sessionCode session
    ∧ is_Some (Session.devices session !! deviceId).
Proof.
  intros Hr Hidx.
  destruct (reachable_index_listed s Hr _ _ Hidx) as (session & Hs & Hd).
  exists session. split; [|done]. split_and!; [done| |done].
  destruct (reachable_codes_valid _ _ _ Hr Hs) as [Hlen _].
  intros ->. simpl in Hlen. lia.
Qed.

Lemma registered_device_is_member_witness :
  ∃ session,
    bound_to hub_S1 devB "AAAAAA" session
    ∧ is_Some (Session.devices session !! devB).
Proof.
  apply (registered_device_is_member hub_S1 devB "AAAAAA").
  - apply (run_reachable 1 tr_S1 hub_init hub_S1
             (default [] (snd <$> run 1 tr_S1 hub_init)));
      [constructor | by_computation].
  - by_computation.
Defined.

Lemma reachable_keyed_by_id s : reachable s → keyed_by_id s.
Proof.
  induction 1 as [|fuel e ev s s' out Hr IH Hstep].
  { intros c session Hc. simpl in Hc. by rewrite lookup_empty in Hc. }
  intros c session' Hc. split.
  - intros k dev Hk.
    destruct (step_devices _ _ _ _ _ _ _ _ _ _ Hstep Hc Hk)
      as [(session & Hs & Hold)|(n & t & ->)]; [|done].
    by apply (IH _ _ Hs).
  - intros k file Hk.
    destruct (step_files _ _ _ _ _ _ _ _ _ _ Hstep Hc Hk)
      as [file1 Hold | | file0 chunk Hold | file0 Hold]; [|done| |];
      destruct (sessions s !! c) as [session|] eqn:Hs; simplify_eq/=;
      by apply (IH _ _ Hs).
Qed.

(** X2. In every reachable state each member of a session is stored under
    its own device id and each file under its own file id, so the ids the
    hub reads from a record ([requestedFile.id], [file.id]) are the keys
    the record was found under. *)
Theorem records_are_keyed_by_id s sessionCode session :
  reachable s →
  sessions s !! sessionCode = Some session →
  (∀ k dev, Session.devices session !! k = Some dev → Device.id dev = k)
  ∧ (∀ k file, Session.files session !! k = Some file → File.id file = k).
Proof. intros Hr Hs. by apply (reachable_keyed_by_id s Hr sessionCode). Qed.

Lemma records_are_keyed_by_id_witness :
  (∀ k dev, Session.devices (session_of hub_S2 "AAAAAA") !! k = Some dev →
            Device.id dev = k)
  ∧ (∀ k file, Session.files (session_of hub_S2 "AAAAAA") !! k = Some file →
               File.id file = k).
Proof.
  apply (records_are_keyed_by_id hub_S2 "AAAAAA").
  - apply (run_reachable 1 tr_S2 hub_init hub_S2
             (default [] (snd <$> run 1 tr_S2 hub_init)));
      [constructor | by_computation].
  - by_computation.
Defined.

(** ** Removal of sessions, and the janitor *)

(** X3. A session leaves [sessions] in two ways only, and only when it has
    no member: the [setTimeout] callback scheduled for it, or a janitor
    tick when it was created more than 30 minutes before.  No message,
    binary frame or close ever removes a session. *)
Theorem session_removed_only_when_empty fuel e ev s s' out sessionCode session :
  step fuel e ev s = Some (s', out) →
  sessions s !! sessionCode = Some session →
  sessions s' !! sessionCode = None →
  size (Session.devices session) = 0
  ∧ (ev = empty_session_timeout sessionCode
     ∨ (ev = janitor_tick
        ∧ (Session.createdAt session < now e - 30 * 60 * 1000)%Z)).
Proof.
  intros Hstep Hs Hgone.
  destruct ev as [D m | D data | D | code | ]; simpl in Hstep.
  - exfalso.
    destruct m as [n t | code n t | fileName fileSize mimeType | fid | fid | fid | | ];
      simpl in Hstep.
    + unfold handle_create_session in Hstep.
      destruct (mintSessionCode fuel (random e) 0 (sessions s)) as [code|];
        simplify_eq/=.
      apply lookup_insert_None in Hgone as [Hgone _]. congruence.
    + unfold handle_join_session in Hstep.
      destruct code as [|code|]; simplify_eq/=; try congruence.
      destruct (sessions s !! Js.toUpperCase code) as [session0|];
        simplify_eq/=; try congruence.
      apply lookup_insert_None in Hgone as [Hgone _]. congruence.
    + unfold handle_file_start in Hstep.
      split_in_session Hstep; simplify_eq/=; try congruence.
      apply lookup_insert_None in Hgone as [Hgone _]. congruence.
    + unfold handle_file_complete in Hstep.
      split_in_session Hstep; simplify_eq/=; try congruence.
      destruct (Session.files session0 !! fid) as [file0|];
        simplify_eq/=; try congruence.
      apply lookup_insert_None in Hgone as [Hgone _]. congruence.
    + unfold handle_request_file in Hstep.
      split_in_session Hstep; simplify_eq/=; try congruence.
      destruct (Session.files session0 !! fid) as [file0|];
        [destruct (File.data file0)|]; simplify_eq/=; congruence.
    + unfold handle_delete_file in Hstep.
      split_in_session Hstep; simplify_eq/=; try congruence.
      destruct (Session.files session0 !! fid) as [file0|];
        simplify_eq/=; try congruence.
      apply lookup_insert_None in Hgone as [Hgone _]. congruence.
    + simplify_eq/=; congruence.
    + simplify_eq/=; congruence.
  - exfalso. unfold handleBinaryMessage in Hstep.
    split_in_session Hstep; simplify_eq/=; try congruence.
    destruct (Session.files session0 !! frame_fileId data) as [file0|];
      simplify_eq/=; try congruence.
    apply lookup_insert_None in Hgone as [Hgone _]. congruence.
  - exfalso. unfold handle_close in Hstep.
    split_in_session Hstep; simplify_eq/=; try congruence.
    apply lookup_insert_None in Hgone as [Hgone _]. congruence.
  - unfold handle_empty_session_timeout in Hstep.
    destruct (sessions s !! code) as [cur|] eqn:Hcur;
      simplify_eq/=; try congruence.
    destruct (Nat.eqb_spec (size (Session.devices cur)) 0) as [Hsize|Hsize];
      simplify_eq/=; try congruence.
    apply lookup_delete_None in Hgone as [<-|Hgone]; [|congruence].
    rewrite Hs in Hcur. simplify_eq. by split; [|left].
  - unfold janitor in Hstep. simplify_eq/=.
    rewrite lookup_omap, Hs in Hgone. simpl in Hgone.
    unfold janitor_session in Hgone.
    destruct (Nat.eqb_spec (size (Session.devices session)) 0) as [Hsize|Hsize];
      simpl in Hgone; [|done].
    case_bool_decide; [|done]. split; [done|]. right. by split.
Qed.

Lemma session_removed_only_when_empty_witness :
  size (Session.devices (Session.Make ∅ ∅ 0)) = 0
  ∧ (empty_session_timeout "AAAAAA" = empty_session_timeout "AAAAAA"
     ∨ (empty_session_timeout "AAAAAA" = janitor_tick
        ∧ (Session.createdAt (Session.Make ∅ ∅ 0) < now env0 - 30 * 60 * 1000)%Z)).
Proof.
  apply (session_removed_only_when_empty 1 env0 (empty_session_timeout "AAAAAA")
           (Hub {[ "AAAAAA" := Session.Make ∅ ∅ 0 ]} ∅ (Stats 1 1))
           (Hub ∅ ∅ (Stats 1 1)) [] "AAAAAA" (Session.Make ∅ ∅ 0)).
  - by_computation.
  - by_computation.
  - by_computation.
Defined.

(** X4. What a janitor tick does to one session.  The session is removed
    exactly when it has no member and its [createdAt] (not the time it
    became empty) is more than 30 minutes old.  Otherwise it is kept with
    the same members and creation time, and its files are exactly those of
    before that are not older than 30 minutes, each unchanged.  The tick
    creates no session and leaves [deviceToSession] and the counters
    alone. *)
Theorem janitor_session_outcome e s sessionCode session :
  sessions s !! sessionCode = Some session →
  ∃ s' out,
    step 0 e janitor_tick s = Some (s', out)
    ∧ deviceToSession s' = deviceToSession s
    ∧ stats s' = stats s
    ∧ (∀ c, sessions s !! c = None → sessions s' !! c = None)
    ∧ (if decide (size (Session.devices session) = 0
                  ∧ (Session.createdAt session < now e - 30 * 60 * 1000)%Z)
       then sessions s' !! sessionCode = None
       else ∃ session',
           sessions s' !! sessionCode = Some session'
           ∧ Session.devices session' = Session.devices session
           ∧ Session.createdAt session' = Session.createdAt session
           ∧ ∀ k file,
               Session.files session' !! k = Some file
               ↔ Session.files session !! k = Some file
                 ∧ (now e - 30 * 60 * 1000 ≤ File.uploadedAt file)%Z).
Proof.
  intros Hs. eexists _, _. split_and!; [reflexivity|done|done| |].
  - intros c Hc. simpl. by rewrite lookup_omap, Hc.
  - simpl. rewrite lookup_omap, Hs. simpl. unfold janitor_session.
    destruct (Nat.eqb_spec (size (Session.devices session)) 0) as [Hsize|Hsize];
      simpl.
    + case_bool_decide as Hold.
      * by rewrite decide_True.
      * rewrite decide_False by (by intros [_ ?]).
        eexists. split_and!; [done..|]. intros k file. simpl.
        unfold janitor_files. rewrite map_lookup_filter_Some.
        unfold stale, thirtyMinutesAgo. simpl. split; intros [? ?]; split; [done|lia|done|lia].
    + rewrite decide_False by (by intros [? _]).
      eexists. split_and!; [done..|]. intros k file. simpl.
      unfold janitor_files. rewrite map_lookup_filter_Some.
      unfold stale, thirtyMinutesAgo. simpl. split; intros [? ?]; split; [done|lia|done|lia].
Qed.

Lemma janitor_session_outcome_witness :
  ∃ s' out,
    step 0 env_31min janitor_tick hub_S2 = Some (s', out)
    ∧ deviceToSession s' = deviceToSession hub_S2
    ∧ stats s' = stats hub_S2
    ∧ (∀ c, sessions hub_S2 !! c = None → sessions s' !! c = None)
    ∧ (if decide (size (Session.devices (session_of hub_S2 "AAAAAA")) = 0
                  ∧ (Session.createdAt (session_of hub_S2 "AAAAAA")
                     < now env_31min - 30 * 60 * 1000)%Z)
       then sessions s' !! "AAAAAA" = None
       else ∃ session',
           sessions s' !! "AAAAAA" = Some session'
           ∧ Session.devices session'
             = Session.devices (session_of hub_S2 "AAAAAA")
           ∧ Session.createdAt session'
             = Session.createdAt (session_of hub_S2 "AAAAAA")
           ∧ ∀ k file,
               Session.files session' !! k = Some file
               ↔ Session.files (session_of hub_S2 "AAAAAA") !! k = Some file
                 ∧ (now env_31min - 30 * 60 * 1000 ≤ File.uploadedAt file)%Z).
Proof.
  apply (janitor_session_outcome env_31min hub_S2 "AAAAAA"
           (session_of hub_S2 "AAAAAA")).
  by_computation.
Defined.

Lemma bind_all_nil {X Y} (f : X → list Y) (l : list X) :
  (∀ x, x ∈ l → f x = []) → l ≫= f = [].
Proof.
  induction l as [|x l IH]; intros Hall; [done|].
  rewrite bind_cons, Hall, IH; [done| |left].
  intros x' Hx'. apply Hall. by right.
Qed.

Lemma janitor_session_fixed cutoff session session' :
  janitor_session cutoff session = Some session' →
  janitor_session cutoff session' = Some session'
  ∧ filter (stale cutoff) (Session.files session') = ∅.
Proof.
  unfold janitor_session. intros Hj.
  destruct (_ && _) eqn:Hcond; simplify_eq/=. rewrite Hcond.
  unfold janitor_files. simpl. split.
  - f_equal. unfold Session.set_files. simpl. f_equal.
    apply map_filter_id. intros k file Hk.
    by apply map_lookup_filter_Some in Hk as [_ Hk].
  - apply map_empty. intros k. apply map_lookup_filter_None. right.
    intros file Hk Hstale.
    by apply map_lookup_filter_Some in Hk as [_ Hk].
Qed.

(** X5. The janitor is idempotent: a second tick at the same time changes
    nothing and sends nothing. *)
Theorem janitor_is_idempotent e s :
  janitor e (janitor e s).1 = ((janitor e s).1, []).
Proof.
  unfold janitor. simpl. f_equal.
  - unfold set_sessions. simpl. f_equal.
    apply map_eq. intros c. rewrite !lookup_omap.
    destruct (sessions s !! c) as [session|]; simpl; [|done].
    destruct (janitor_session (thirtyMinutesAgo e) session) as [session'|] eqn:Hj;
      simpl; [|done].
    by apply janitor_session_fixed in Hj as [-> _].
  - apply bind_all_nil. intros [c session'] Hin.
    apply elem_of_map_to_list, lookup_omap_Some in Hin as (session & Hj & _).
    apply janitor_session_fixed in Hj as [_ Hnone].
    unfold janitor_sends. simpl. by rewrite Hnone, map_to_list_empty.
Qed.

(** ** Closing a connection *)

(** X6. When the connection of a registered device closes, the device is
    taken out of the members of its session and out of
    [deviceToSession]; the session stays, with its files, even when it is
    left empty; every remaining member whose socket is open is sent exactly
    one [device_left] carrying the new number of members, and nobody else
    is sent anything.  No other device loses its index entry. *)
Theorem close_leaves_session fuel e s D c session :
  bound_to s D c session →
  ∃ s' out session',
    step fuel e (on_close D) s = Some (s', out)
    ∧ deviceToSession s' = delete D (deviceToSession s)
    ∧ sessions s' !! c = Some session'
    ∧ Session.devices session' = delete D (Session.devices session)
    ∧ Session.files session' = Session.files session
    ∧ (∀ c2, c2 ≠ c → sessions s' !! c2 = sessions s !! c2)
    ∧ ∀ D2,
        frames_to D2 out
        = if decide (is_Some (Session.devices session !! D2) ∧ D2 ≠ D
                     ∧ ready e D2 = true)
          then [device_left D (size (delete D (Session.devices session)))]
          else [].
Proof.
  intros Hb. eexists _, _, _.
  cbn [step]. unfold handle_close. rewrite (in_session_bound _ _ _ _ _ Hb).
  split_and!; [reflexivity|done| | | | |].
  - simpl. apply lookup_insert_eq.
  - done.
  - done.
  - intros c2 Hne. simpl. by rewrite lookup_insert_ne.
  - intros D2.
    rewrite (frames_to_broadcastToSession _ _ _ _ _ _ _ (lookup_insert_eq _ _ _)).
    simpl.
    destruct (decide (is_Some (Session.devices session !! D2) ∧ D2 ≠ D
                      ∧ ready e D2 = true)) as [(Hm & Hne & Hr)|Hno].
    + rewrite decide_True; [done|].
      by rewrite lookup_delete_ne.
    + rewrite decide_False; [done|]. intros (Hm & _ & Hr). apply Hno.
      destruct (decide (D2 = D)) as [->|Hne].
      * rewrite lookup_delete_eq in Hm. by destruct Hm.
      * by rewrite lookup_delete_ne in Hm.
Qed.

Lemma close_leaves_session_witness :
  ∃ s' out session',
    step 1 env0 (on_close devB) hub_S2 = Some (s', out)
    ∧ deviceToSession s' = delete devB (deviceToSession hub_S2)
    ∧ sessions s' !! "AAAAAA" = Some session'
    ∧ Session.devices session'
      = delete devB (Session.devices (session_of hub_S2 "AAAAAA"))
    ∧ Session.files session' = Session.files (session_of hub_S2 "AAAAAA")
    ∧ (∀ c2, c2 ≠ "AAAAAA" → sessions s' !! c2 = sessions hub_S2 !! c2)
    ∧ ∀ D2,
        frames_to D2 out
        = if decide (is_Some (Session.devices (session_of hub_S2 "AAAAAA") !! D2)
                     ∧ D2 ≠ devB ∧ ready env0 D2 = true)
          then [device_left devB
                  (size (delete devB
                           (Session.devices (session_of hub_S2 "AAAAAA"))))]
          else [].
Proof.
  apply (close_leaves_session 1 env0 hub_S2 devB "AAAAAA"
           (session_of hub_S2 "AAAAAA")).
  unfold bound_to. split_and!; by_computation.
Defined.

(** ** Frames that are ignored *)

Lemma in_session_unregistered s deviceId k :
  deviceToSession s !! deviceId = None → in_session s deviceId k = (s, []).
Proof. intros Hidx. unfold in_session. by rewrite Hidx. Qed.

(** X7. A device that is in no session (it never created or joined one, or
    its connection was closed) gets no service from the file protocol:
    [file_start], [file_complete], [request_file], [delete_file] and binary
    frames from it change nothing and are answered with nothing.  [ping]
    is still answered, and the close of its connection changes nothing. *)
Theorem unregistered_device_is_ignored fuel e s D :
  deviceToSession s !! D = None →
  (∀ fileName fileSize mimeType,
     handleJsonMessage fuel e D (file_start fileName fileSize mimeType) s
     = Some (s, []))
  ∧ (∀ fileId,
       handleJsonMessage fuel e D (file_complete fileId) s = Some (s, [])
       ∧ handleJsonMessage fuel e D (request_file fileId) s = Some (s, [])
       ∧ handleJsonMessage fuel e D (delete_file fileId) s = Some (s, []))
  ∧ (∀ data, handleBinaryMessage D data s = (s, []))
  ∧ handleJsonMessage fuel e D ping s = Some (s, [(D, pong)])
  ∧ step fuel e (on_close D) s = Some (s, []).
Proof.
  intros Hidx. split_and!.
  - intros. cbn [handleJsonMessage]. unfold handle_file_start.
    by rewrite in_session_unregistered.
  - intros. cbn [handleJsonMessage].
    unfold handle_file_complete, handle_request_file, handle_delete_file.
    by rewrite !in_session_unregistered.
  - intros. unfold handleBinaryMessage. by rewrite in_session_unregistered.
  - done.
  - cbn [step]. unfold handle_close.
    rewrite in_session_unregistered by done.
    rewrite delete_id by done. by destruct s.
Qed.

Lemma unregistered_device_is_ignored_witness :
  (∀ fileName fileSize mimeType,
     handleJsonMessage 1 env0 devC (file_start fileName fileSize mimeType) hub_S2
     = Some (hub_S2, []))
  ∧ (∀ fileId,
       handleJsonMessage 1 env0 devC (file_complete fileId) hub_S2
       = Some (hub_S2, [])
       ∧ handleJsonMessage 1 env0 devC (request_file fileId) hub_S2
         = Some (hub_S2, [])
       ∧ handleJsonMessage 1 env0 devC (delete_file fileId) hub_S2
         = Some (hub_S2, []))
  ∧ (∀ data, handleBinaryMessage devC data hub_S2 = (hub_S2, []))
  ∧ handleJsonMessage 1 env0 devC ping hub_S2 = Some (hub_S2, [(devC, pong)])
  ∧ step 1 env0 (on_close devC) hub_S2 = Some (hub_S2, []).
Proof.
  apply (unregistered_device_is_ignored 1 env0 hub_S2 devC).
  by_computation.
Defined.

(** X8. File frames that name no servable file are dropped without a
    reply.  For a member of a session: [file_complete], [request_file] and
    [delete_file] for an id that is not in the session's store change
    nothing and send nothing (whether or not another session holds a file
    with that id); and so does [request_file] for a file that is still in
    flight (started, not completed). *)
Theorem unknown_or_unfinished_file_is_not_served fuel e s D c session fileId :
  bound_to s D c session →
  (Session.files session !! fileId = None →
     handleJsonMessage fuel e D (file_complete fileId) s = Some (s, [])
     ∧ handleJsonMessage fuel e D (request_file fileId) s = Some (s, [])
     ∧ handleJsonMessage fuel e D (delete_file fileId) s = Some (s, []))
  ∧ (∀ file, Session.files session !! fileId = Some file →
             File.data file = None →
             handleJsonMessage fuel e D (request_file fileId) s = Some (s, [])).
Proof.
  intros Hb. split.
  - intros Hnone. cbn [handleJsonMessage].
    unfold handle_file_complete, handle_request_file, handle_delete_file.
    rewrite !(in_session_bound _ _ _ _ _ Hb). by rewrite Hnone.
  - intros file Hf Hopen. cbn [handleJsonMessage]. unfold handle_request_file.
    rewrite (in_session_bound _ _ _ _ _ Hb). by rewrite Hf, Hopen.
Qed.

Lemma unknown_or_unfinished_file_is_not_served_witness :
  (Session.files (session_of hub_short "AAAAAA") !! fileF = None →
     handleJsonMessage 1 env0 devA (file_complete fileF) hub_short
     = Some (hub_short, [])
     ∧ handleJsonMessage 1 env0 devA (request_file fileF) hub_short
       = Some (hub_short, [])
     ∧ handleJsonMessage 1 env0 devA (delete_file fileF) hub_short
       = Some (hub_short, []))
  ∧ (∀ file, Session.files (session_of hub_short "AAAAAA") !! fileF = Some file →
             File.data file = None →
             handleJsonMessage 1 env0 devA (request_file fileF) hub_short
             = Some (hub_short, [])).
Proof.
  apply (unknown_or_unfinished_file_is_not_served 1 env0 hub_short devA "AAAAAA"
           (session_of hub_short "AAAAAA") fileF).
  unfold bound_to. split_and!; by_computation.
Defined.

(** ** Starting and completing an upload *)

(** X9. [file_start] from a member of a session stores a new Open file
    under the id [uuidv4] returns: no bytes, no chunks, [receivedSize] 0,
    the declared name, size and type, the sender as uploader.  The other
    files of the session and the members are untouched, the only frame sent
    is [file_start_ack] to the sender (peers learn of the file at
    [file_complete], not before), and a [request_file] for the new id is
    not answered while the file is Open. *)
Theorem file_start_opens_file fuel e s U c session fileName fileSize mimeType :
  bound_to s U c session →
  ∃ s' session' file,
    handleJsonMessage fuel e U (file_start fileName fileSize mimeType) s
    = Some (s', [(U, file_start_ack (uuidv4 e) fileName)])
    ∧ bound_to s' U c session'
    ∧ Session.files session' !! uuidv4 e = Some file
    ∧ file = File.Make (uuidv4 e) fileName fileSize mimeType (now e)
                       [] 0 U None
    ∧ (∀ k, k ≠ uuidv4 e →
            Session.files session' !! k = Session.files session !! k)
    ∧ Session.devices session' = Session.devices session
    ∧ ∀ e2 D session2,
        bound_to s' D c session2 →
        handleJsonMessage fuel e2 D (request_file (uuidv4 e)) s' = Some (s', []).
Proof.
  intros Hb.
  set (file := File.Make (uuidv4 e) fileName fileSize mimeType (now e)
                         [] 0 U None).
  set (session' := Session.set_files
                     (<[uuidv4 e := file]> (Session.files session)) session).
  pose proof (bound_to_update _ _ _ _ session' Hb) as Hb'.
  exists (set_sessions (<[c := session']> (sessions s)) s), session', file.
  split_and!; [|done| |done| |done|].
  - cbn [handleJsonMessage]. unfold handle_file_start.
    by rewrite (in_session_bound _ _ _ _ _ Hb).
  - simpl. apply lookup_insert_eq.
  - intros k Hk. simpl. by rewrite lookup_insert_ne.
  - intros e2 D session2 Hb2.
    destruct Hb2 as (Hidx & Hne & Hs2).
    destruct Hb' as (_ & _ & Hs').
    assert (session2 = session') as -> by congruence.
    cbn [handleJsonMessage]. unfold handle_request_file.
    rewrite (in_session_bound _ D c session'); [|by split_and!].
    simpl. by rewrite lookup_insert_eq.
Qed.

Lemma file_start_opens_file_witness :
  ∃ s' session' file,
    handleJsonMessage 1 env0 devA (file_start "hi.txt" 5 "text/plain") hub_S1
    = Some (s', [(devA, file_start_ack (uuidv4 env0) "hi.txt")])
    ∧ bound_to s' devA "AAAAAA" session'
    ∧ Session.files session' !! uuidv4 env0 = Some file
    ∧ file = File.Make (uuidv4 env0) "hi.txt" 5 "text/plain" (now env0)
                       [] 0 devA None
    ∧ (∀ k, k ≠ uuidv4 env0 →
            Session.files session' !! k
            = Session.files (session_of hub_S1 "AAAAAA") !! k)
    ∧ Session.devices session' = Session.devices (session_of hub_S1 "AAAAAA")
    ∧ ∀ e2 D session2,
        bound_to s' D "AAAAAA" session2 →
        handleJsonMessage 1 e2 D (request_file (uuidv4 env0)) s' = Some (s', []).
Proof.
  apply (file_start_opens_file 1 env0 hub_S1 devA "AAAAAA"
           (session_of hub_S1 "AAAAAA") "hi.txt" 5 "text/plain").
  unfold bound_to. split_and!; by_computation.
Defined.

(** X10. Fan-out of [file_complete].  For any file of the sender's session
    (Open or not), the sender is sent exactly one [file_complete_ack] and
    no [new_file]; every other member whose socket is open is sent exactly
    one [new_file] with the file's id, name, declared size, type and upload
    time, and nothing else; devices outside the session are sent nothing.
    Only that file of that session changes. *)
Theorem file_complete_fans_out fuel e s U c session fileId file0 :
  bound_to s U c session →
  Session.files session !! fileId = Some file0 →
  ∃ s' out session',
    handleJsonMessage fuel e U (file_complete fileId) s = Some (s', out)
    ∧ sessions s' !! c = Some session'
    ∧ Session.files session'
      = <[fileId := File.complete file0]> (Session.files session)
    ∧ Session.devices session' = Session.devices session
    ∧ (∀ c2, c2 ≠ c → sessions s' !! c2 = sessions s !! c2)
    ∧ deviceToSession s' = deviceToSession s
    ∧ ∀ D,
        frames_to D out
        = if decide (D = U) then [file_complete_ack fileId]
          else if decide (is_Some (Session.devices session !! D)
                          ∧ ready e D = true)
               then [new_file (FileMeta (File.id file0) (File.originalName file0)
                                        (File.size file0) (File.mimetype file0)
                                        (File.uploadedAt file0))]
               else [].
Proof.
  intros Hb Hf. eexists _, _, _.
  cbn [handleJsonMessage].
  rewrite (handle_file_complete_stored _ _ _ _ _ _ _ Hb Hf).
  split_and!; [reflexivity| | | | | |].
  - simpl. apply lookup_insert_eq.
  - done.
  - done.
  - intros c2 Hne. simpl. by rewrite lookup_insert_ne.
  - done.
  - intros D.
    rewrite frames_to_app, frames_to_broadcast, frames_to_cons.
    destruct (decide (D = U)) as [->|Hne].
    + rewrite decide_False by (by intros (_ & ? & _)).
      by rewrite decide_True.
    + rewrite (decide_False (P := U = D)) by done. rewrite app_nil_r.
      destruct (decide (is_Some (Session.devices session !! D)
                        ∧ ready e D = true)) as [[Hm Hr]|Hno].
      * rewrite decide_True; [done|]. split_and!; [done| |done]. congruence.
      * rewrite decide_False; [done|]. intros (? & _ & ?). by apply Hno.
Qed.

Lemma file_complete_fans_out_witness :
  ∃ s' out session',
    handleJsonMessage 1 env0 devA (file_complete fileF) hub_short
    = Some (s', out)
    ∧ sessions s' !! "AAAAAA" = Some session'
    ∧ Session.files session'
      = <[fileF := File.complete file_short]>
          (Session.files (session_of hub_short "AAAAAA"))
    ∧ Session.devices session' = Session.devices (session_of hub_short "AAAAAA")
    ∧ (∀ c2, c2 ≠ "AAAAAA" → sessions s' !! c2 = sessions hub_short !! c2)
    ∧ deviceToSession s' = deviceToSession hub_short
    ∧ ∀ D,
        frames_to D out
        = if decide (D = devA) then [file_complete_ack fileF]
          else if decide (is_Some (Session.devices (session_of hub_short "AAAAAA")
                                     !! D)
                          ∧ ready env0 D = true)
               then [new_file (FileMeta (File.id file_short)
                                        (File.originalName file_short)
                                        (File.size file_short)
                                        (File.mimetype file_short)
                                        (File.uploadedAt file_short))]
               else [].
Proof.
  apply (file_complete_fans_out 1 env0 hub_short devA "AAAAAA"
           (session_of hub_short "AAAAAA") fileF file_short).
  - unfold bound_to. split_and!; by_computation.
  - by_computation.
Defined.

(** ** Creating and joining *)

(** X11. What [create_session] leaves behind when it returns: a new session
    under the minted code, created now, whose only member is the sender
    (with the default name and type when none is given) and which has no
    file; the sender mapped to that code; both counters one higher; every
    other index entry as before; and one frame, [session_created] with a
    member count of 1, to the sender. *)
Theorem create_session_outcome fuel e s D deviceName deviceType s' out :
  handleJsonMessage fuel e D (create_session deviceName deviceType) s
  = Some (s', out) →
  ∃ code,
    sessions s' !! code
    = Some (Session.Make
              {[ D := Device.Make D (Js.or_default deviceName "Unknown Device")
                                  (Js.or_default deviceType "unknown") (now e) ]}
              ∅ (now e))
    ∧ sessions s !! code = None
    ∧ deviceToSession s' = <[D := code]> (deviceToSession s)
    ∧ totalUsers (stats s') = S (totalUsers (stats s))
    ∧ totalSessions (stats s') = S (totalSessions (stats s))
    ∧ out = [(D, session_created code D 1)].
Proof.
  cbn [handleJsonMessage]. unfold handle_create_session. intros Hcreate.
  destruct (mintSessionCode fuel (random e) 0 (sessions s)) as [code|] eqn:Hm;
    simplify_eq/=.
  apply mintSessionCode_Some in Hm as (_ & _ & _ & Hfree & _).
  exists code. split_and!; [|done..|].
  - apply lookup_insert_eq.
  - by rewrite map_size_singleton.
Qed.

Lemma create_session_outcome_witness :
  ∃ code,
    sessions hub_S0 !! code
    = Some (Session.Make
              {[ devA := Device.Make devA (Js.or_default (Some "Mac") "Unknown Device")
                                     (Js.or_default (Some "mac") "unknown")
                                     (now env0) ]}
              ∅ (now env0))
    ∧ sessions hub_init !! code = None
    ∧ deviceToSession hub_S0 = <[devA := code]> (deviceToSession hub_init)
    ∧ totalUsers (stats hub_S0) = S (totalUsers (stats hub_init))
    ∧ totalSessions (stats hub_S0) = S (totalSessions (stats hub_init))
    ∧ [(devA, session_created "AAAAAA" devA 1)]
      = [(devA, session_created code devA 1)].
Proof.
  apply (create_session_outcome 1 env0 hub_init devA (Some "Mac") (Some "mac")
           hub_S0 [(devA, session_created "AAAAAA" devA 1)]).
  by_computation.
Defined.

(** X12. Fan-out of a successful [join_session].  The joiner is sent
    [session_joined] with the uppercased code and the new member count,
    then, only if the session has files, one [existing_files] listing the
    metadata of each file of the session once, and nothing else.  Every
    other member whose socket is open is sent exactly one [device_joined]
    with the joiner's id, the name and type as given, and the new count;
    the joiner itself is sent no [device_joined].  The user counter goes up
    by one, the session counter does not move, other sessions are
    untouched. *)
Theorem join_session_fans_out fuel e s D code deviceName deviceType session :
  sessions s !! Js.toUpperCase code = Some session →
  ∃ s' out,
    handleJsonMessage fuel e D
      (join_session (code_string code) deviceName deviceType) s
    = Some (s', out)
    ∧ totalUsers (stats s') = S (totalUsers (stats s))
    ∧ totalSessions (stats s') = totalSessions (stats s)
    ∧ (∀ c2, c2 ≠ Js.toUpperCase code → sessions s' !! c2 = sessions s !! c2)
    ∧ frames_to D out
      = session_joined (Js.toUpperCase code) D
          (size (<[D := new_device e D deviceName deviceType]>
                   (Session.devices session)))
        :: (if decide (Session.files session = ∅) then []
            else [existing_files
                    (meta_of <$> (map_to_list (Session.files session)).*2)])
    ∧ length (meta_of <$> (map_to_list (Session.files session)).*2)
      = size (Session.files session)
    ∧ (∀ m, m ∈ meta_of <$> (map_to_list (Session.files session)).*2
            ↔ ∃ k file, Session.files session !! k = Some file
                        ∧ m = meta_of file)
    ∧ ∀ D2, D2 ≠ D →
        frames_to D2 out
        = if decide (is_Some (Session.devices session !! D2)
                     ∧ ready e D2 = true)
          then [device_joined D deviceName deviceType
                  (size (<[D := new_device e D deviceName deviceType]>
                           (Session.devices session)))]
          else [].
Proof.
  intros Hs. eexists _, _.
  cbn [handleJsonMessage]. unfold handle_join_session.
  cbn [uppercased]. rewrite Hs.
  split_and!; [reflexivity|done|done| | | | |].
  - intros c2 Hne. simpl. by rewrite lookup_insert_ne.
  - cbn [app]. rewrite frames_to_cons, decide_True by done. f_equal.
    rewrite frames_to_app.
    rewrite (frames_to_broadcastToSession _ _ _ _ _ _ _ (lookup_insert_eq _ _ _)).
    rewrite decide_False by (by intros (_ & ? & _)). simpl.
    destruct (decide (Session.files session = ∅)) as [Hempty|Hfiles].
    + rewrite Hempty, map_to_list_empty. done.
    + rewrite decide_False.
      * by rewrite frames_to_cons, decide_True.
      * intros Hnil. apply Hfiles.
        apply fmap_nil_inv, fmap_nil_inv in Hnil.
        by apply map_to_list_empty_iff.
  - by rewrite !length_fmap, length_map_to_list.
  - intros m. rewrite list_elem_of_fmap. split.
    + intros (file & -> & Hin).
      apply list_elem_of_fmap in Hin as ([k file'] & -> & Hin).
      apply elem_of_map_to_list in Hin. by exists k, file'.
    + intros (k & file & Hk & ->). exists file. split; [done|].
      apply list_elem_of_fmap. exists (k, file). split; [done|].
      by apply elem_of_map_to_list.
  - intros D2 Hne. cbn [app].
    rewrite frames_to_cons, decide_False by done.
    rewrite frames_to_app.
    rewrite (frames_to_broadcastToSession _ _ _ _ _ _ _ (lookup_insert_eq _ _ _)).
    simpl.
    assert (Hlast : ∀ l : list send,
               (∀ p, p ∈ l → p.1 = D) → frames_to D2 l = []).
    { induction l as [|[d fr] l IH]; intros Hall; [done|].
      rewrite frames_to_cons, decide_False.
      - apply IH. intros p Hp. apply Hall. by right.
      - intros ->. apply Hne. apply (Hall (D2, fr)). by left. }
    rewrite Hlast, app_nil_r.
    + rewrite lookup_insert_ne by done.
      destruct (decide (is_Some (Session.devices session !! D2)
                        ∧ ready e D2 = true)) as [[Hm Hr]|Hno].
      * rewrite decide_True; [done|]. split_and!; [done| |done]. congruence.
      * rewrite decide_False; [done|]. intros (? & _ & ?). by apply Hno.
    + intros p Hp. destruct (decide _); [by apply elem_of_nil in Hp|].
      by apply list_elem_of_singleton in Hp as ->.
Qed.

Lemma join_session_fans_out_witness :
  ∃ s' out,
    handleJsonMessage 1 env0 devC
      (join_session (code_string "aaaaaa") (Some "PC") None) hub_S2
    = Some (s', out)
    ∧ totalUsers (stats s') = S (totalUsers (stats hub_S2))
    ∧ totalSessions (stats s') = totalSessions (stats hub_S2)
    ∧ (∀ c2, c2 ≠ Js.toUpperCase "aaaaaa" →
             sessions s' !! c2 = sessions hub_S2 !! c2)
    ∧ frames_to devC out
      = session_joined (Js.toUpperCase "aaaaaa") devC
          (size (<[devC := new_device env0 devC (Some "PC") None]>
                   (Session.devices (session_of hub_S2 "AAAAAA"))))
        :: (if decide (Session.files (session_of hub_S2 "AAAAAA") = ∅) then []
            else [existing_files
                    (meta_of <$> (map_to_list
                                    (Session.files (session_of hub_S2 "AAAAAA"))).*2)])
    ∧ length (meta_of <$> (map_to_list
                             (Session.files (session_of hub_S2 "AAAAAA"))).*2)
      = size (Session.files (session_of hub_S2 "AAAAAA"))
    ∧ (∀ m, m ∈ meta_of <$> (map_to_list
                               (Session.files (session_of hub_S2 "AAAAAA"))).*2
            ↔ ∃ k file, Session.files (session_of hub_S2 "AAAAAA") !! k = Some file
                        ∧ m = meta_of file)
    ∧ ∀ D2, D2 ≠ devC →
        frames_to D2 out
        = if decide (is_Some (Session.devices (session_of hub_S2 "AAAAAA") !! D2)
                     ∧ ready env0 D2 = true)
          then [device_joined devC (Some "PC") None
                  (size (<[devC := new_device env0 devC (Some "PC") None]>
                           (Session.devices (session_of hub_S2 "AAAAAA"))))]
          else [].
Proof.
  apply (join_session_fans_out 1 env0 hub_S2 devC "aaaaaa" (Some "PC") None
           (session_of hub_S2 "AAAAAA")).
  by_computation.
Defined.

(** X13. Joining does not leave.  When a device that is a member of a
    session joins another one, [deviceToSession] moves to the new session
    but the former session is not touched: it still lists the device, so
    its broadcasts still go to the device's socket when it is open. *)
Theorem second_join_keeps_first_membership fuel e s D c1 session1 code
    deviceName deviceType session2 :
  bound_to s D c1 session1 →
  is_Some (Session.devices session1 !! D) →
  sessions s !! Js.toUpperCase code = Some session2 →
  Js.toUpperCase code ≠ c1 →
  ∃ s' out session2',
    handleJsonMessage fuel e D
      (join_session (code_string code) deviceName deviceType) s
    = Some (s', out)
    ∧ deviceToSession s' !! D = Some (Js.toUpperCase code)
    ∧ sessions s' !! Js.toUpperCase code = Some session2'
    ∧ is_Some (Session.devices session2' !! D)
    ∧ sessions s' !! c1 = Some session1
    ∧ ∀ rdy msg,
        frames_to D (broadcastToSession rdy (sessions s') c1 msg None)
        = if rdy D then [msg] else [].
Proof.
  intros Hb Hm Hs2 Hne. pose proof Hb as (_ & _ & Hs1).
  eexists _, _, _.
  cbn [handleJsonMessage]. unfold handle_join_session.
  cbn [uppercased]. rewrite Hs2.
  assert (Hkept : <[Js.toUpperCase code :=
                      Session.set_devices
                        (<[D := new_device e D deviceName deviceType]>
                           (Session.devices session2)) session2]> (sessions s)
                  !! c1 = Some session1)
    by (by rewrite lookup_insert_ne).
  split_and!; [reflexivity| | | |exact Hkept|].
  - simpl. apply lookup_insert_eq.
  - simpl. apply lookup_insert_eq.
  - simpl. rewrite lookup_insert_eq. by eexists.
  - intros rdy msg. simpl.
    rewrite (frames_to_broadcastToSession _ _ _ _ _ _ _ Hkept).
    destruct (rdy D) eqn:Hr.
    + by rewrite decide_True.
    + rewrite decide_False; [done|]. by intros (_ & _ & ?).
Qed.

Lemma second_join_keeps_first_membership_witness :
  ∃ s' out session2',
    handleJsonMessage 1 env0 devB
      (join_session (code_string "ssssss") (Some "iPhone") None) hub_two_sessions
    = Some (s', out)
    ∧ deviceToSession s' !! devB = Some (Js.toUpperCase "ssssss")
    ∧ sessions s' !! Js.toUpperCase "ssssss" = Some session2'
    ∧ is_Some (Session.devices session2' !! devB)
    ∧ sessions s' !! "AAAAAA" = Some (session_of hub_two_sessions "AAAAAA")
    ∧ ∀ rdy msg,
        frames_to devB (broadcastToSession rdy (sessions s') "AAAAAA" msg None)
        = if rdy devB then [msg] else [].
Proof.
  apply (second_join_keeps_first_membership 1 env0 hub_two_sessions devB "AAAAAA"
           (session_of hub_two_sessions "AAAAAA") "ssssss" (Some "iPhone") None
           (session_of hub_two_sessions "SSSSSS")).
  - unfold bound_to. split_and!; by_computation.
  - eexists. by_computation.
  - by_computation.
  - by_computation.
Defined.

(** ** Isolation of sessions *)

Lemma elem_of_broadcastToDevices rdy (devs : gmap string Device.t) msg ex D fr :
  (D, fr) ∈ broadcastToDevices rdy devs msg ex →
  is_Some (devs !! D) ∧ rdy D = true ∧ fr = msg.
Proof.
  unfold broadcastToDevices. intros Hin.
  apply list_elem_of_omap in Hin as ([k dev] & Hin & Hsend).
  apply elem_of_map_to_list in Hin. simpl in Hsend.
  destruct (bool_decide (Some k ≠ ex)); simpl in Hsend; [|done].
  destruct (rdy k) eqn:Hr; simplify_eq/=. by split_and!; [eexists| |].
Qed.

(** X14. File traffic stays inside the sender's session.  Whatever file
    control frame or binary frame a member of session [c] sends, the other
    sessions, [deviceToSession], the counters and the members of [c] are
    as before, and every frame the hub sends goes to the sender or to a
    member of [c] whose socket is open: no device that is only in another
    session is told anything. *)
Theorem file_traffic_stays_in_session fuel e ev s U c session s' out :
  bound_to s U c session →
  file_traffic U ev →
  step fuel e ev s = Some (s', out) →
  (∀ c2, c2 ≠ c → sessions s' !! c2 = sessions s !! c2)
  ∧ deviceToSession s' = deviceToSession s
  ∧ stats s' = stats s
  ∧ (∃ session', sessions s' !! c = Some session'
                 ∧ Session.devices session' = Session.devices session
                 ∧ Session.createdAt session' = Session.createdAt session)
  ∧ ∀ D fr, (D, fr) ∈ out →
            D = U ∨ (is_Some (Session.devices session !! D) ∧ ready e D = true).
Proof.
  intros Hb Hev Hstep. pose proof Hb as (_ & _ & Hs).
  assert (Hin_bc : ∀ ss' files' msg ex D fr,
            ss' = <[c := Session.set_files files' session]> (sessions s) →
            (D, fr) ∈ broadcastToSession (ready e) ss' c msg ex →
            D = U ∨ (is_Some (Session.devices session !! D)
                     ∧ ready e D = true)).
  { intros ss' files' msg ex D fr -> Hin. unfold broadcastToSession in Hin.
    rewrite lookup_insert_eq in Hin.
    apply elem_of_broadcastToDevices in Hin as (? & ? & _). by right. }
  destruct ev as [d m | d data | d | code | ]; simpl in Hev; try done.
  - destruct m as [n t | code n t | fileName fileSize mimeType | fid | fid | fid | | ];
      try done; subst d; simpl in Hstep.
    + unfold handle_file_start in Hstep.
      rewrite (in_session_bound _ _ _ _ _ Hb) in Hstep. simplify_eq/=.
      split_and!; [|done|done| |].
      * intros c2 Hne. by rewrite lookup_insert_ne.
      * eexists. by rewrite lookup_insert_eq.
      * intros D fr Hin. apply list_elem_of_singleton in Hin.
        simplify_eq. by left.
    + unfold handle_file_complete in Hstep.
      rewrite (in_session_bound _ _ _ _ _ Hb) in Hstep.
      destruct (Session.files session !! fid) as [file0|]; simplify_eq/=.
      * split_and!; [|done|done| |].
        -- intros c2 Hne. by rewrite lookup_insert_ne.
        -- eexists. by rewrite lookup_insert_eq.
        -- intros D fr Hin. apply elem_of_app in Hin as [Hin|Hin].
           ++ by eapply Hin_bc.
           ++ apply list_elem_of_singleton in Hin. simplify_eq. by left.
      * split_and!; [done..|by exists session|].
        intros D fr Hin. by apply elem_of_nil in Hin.
    + unfold handle_request_file in Hstep.
      rewrite (in_session_bound _ _ _ _ _ Hb) in Hstep.
      split_and!; [| | | |].
      1-4: destruct (Session.files session !! fid) as [file0|];
        [destruct (File.data file0) as [buf|]|]; simplify_eq/=;
        first [done | by exists session].
      intros D fr Hin.
      destruct (Session.files session !! fid) as [file0|];
        [destruct (File.data file0) as [buf|]|]; simplify_eq/=;
        try (by apply elem_of_nil in Hin).
      left.
      apply elem_of_cons in Hin as [Hin|Hin]; [by simplify_eq|].
      apply elem_of_app in Hin as [Hin|Hin].
      * apply list_elem_of_fmap in Hin as (packet & Heq & _). by simplify_eq.
      * apply list_elem_of_singleton in Hin. by simplify_eq.
    + unfold handle_delete_file in Hstep.
      rewrite (in_session_bound _ _ _ _ _ Hb) in Hstep.
      destruct (Session.files session !! fid) as [file0|]; simplify_eq/=.
      * split_and!; [|done|done| |].
        -- intros c2 Hne. by rewrite lookup_insert_ne.
        -- eexists. by rewrite lookup_insert_eq.
        -- intros D fr Hin. by eapply Hin_bc.
      * split_and!; [done..|by exists session|].
        intros D fr Hin. by apply elem_of_nil in Hin.
  - subst d. simpl in Hstep. unfold handleBinaryMessage in Hstep.
    rewrite (in_session_bound _ _ _ _ _ Hb) in Hstep.
    destruct (Session.files session !! frame_fileId data) as [file0|];
      simplify_eq/=.
    + split_and!; [|done|done| |].
      * intros c2 Hne. by rewrite lookup_insert_ne.
      * eexists. by rewrite lookup_insert_eq.
      * intros D fr Hin. apply list_elem_of_singleton in Hin.
        simplify_eq. by left.
    + split_and!; [done..|by exists session|].
      intros D fr Hin. by apply elem_of_nil in Hin.
Qed.

Lemma file_traffic_stays_in_session_witness :
  (∀ c2, c2 ≠ "AAAAAA" →
         sessions (hub_after (tr_S2 ++ [(env0, on_message devA (delete_file fileF))]))
           !! c2
         = sessions hub_S2 !! c2)
  ∧ deviceToSession
      (hub_after (tr_S2 ++ [(env0, on_message devA (delete_file fileF))]))
    = deviceToSession hub_S2
  ∧ stats (hub_after (tr_S2 ++ [(env0, on_message devA (delete_file fileF))]))
    = stats hub_S2
  ∧ (∃ session',
        sessions (hub_after (tr_S2 ++ [(env0, on_message devA (delete_file fileF))]))
          !! "AAAAAA" = Some session'
        ∧ Session.devices session'
          = Session.devices (session_of hub_S2 "AAAAAA")
        ∧ Session.createdAt session'
          = Session.createdAt (session_of hub_S2 "AAAAAA"))
  ∧ ∀ D fr, (D, fr) ∈ [(devA, file_removed fileF); (devB, file_removed fileF)] →
            D = devA
            ∨ (is_Some (Session.devices (session_of hub_S2 "AAAAAA") !! D)
               ∧ ready env0 D = true).
Proof.
  apply (file_traffic_stays_in_session 1 env0
           (on_message devA (delete_file fileF)) hub_S2 devA "AAAAAA"
           (session_of hub_S2 "AAAAAA")).
  - unfold bound_to. split_and!; by_computation.
  - reflexivity.
  - by_computation.
Defined.

(** ** The usage counters *)

(** X15. The two usage counters never go down, and one step keeps these
    bounds: there are never more live sessions than [totalSessions] counts,
    and [totalSessions] never exceeds [totalUsers] (each session created
    counts its creator as a user).  The counters move in two cases only: a
    [create_session] that returns adds one to both, a [join_session] whose
    uppercased code is a live session adds one to [totalUsers]; a failed
    join, like every other event, counts nothing. *)
Theorem counters_bound_live_sessions fuel e ev s s' out :
  step fuel e ev s = Some (s', out) →
  size (sessions s) ≤ totalSessions (stats s) →
  totalSessions (stats s) ≤ totalUsers (stats s) →
  size (sessions s') ≤ totalSessions (stats s')
  ∧ totalSessions (stats s') ≤ totalUsers (stats s')
  ∧ totalSessions (stats s) ≤ totalSessions (stats s')
  ∧ totalUsers (stats s) ≤ totalUsers (stats s')
  ∧ stats s'
    = match ev with
      | on_message _ (create_session _ _) =>
          Stats (S (totalUsers (stats s))) (S (totalSessions (stats s)))
      | on_message _ (join_session (code_string code) _ _) =>
          if decide (is_Some (sessions s !! Js.toUpperCase code))
          then Stats (S (totalUsers (stats s))) (totalSessions (stats s))
          else stats s
      | _ => stats s
      end.
Proof.
  intros Hstep Hlive Hle.
  assert (Hupd : ∀ c session session',
            sessions s !! c = Some session →
            size (<[c := session']> (sessions s)) = size (sessions s)).
  { intros c session session' Hc. by apply map_size_insert_Some. }
  destruct ev as [D m | D data | D | code | ]; simpl in Hstep.
  - destruct m as [n t | code n t | fileName fileSize mimeType | fid | fid | fid | | ];
      simpl in Hstep.
    + unfold handle_create_session in Hstep.
      destruct (mintSessionCode fuel (random e) 0 (sessions s)) as [code|] eqn:Hm;
        simplify_eq/=.
      apply mintSessionCode_Some in Hm as (_ & _ & _ & Hfree & _).
      rewrite map_size_insert_None by done. split_and!; [lia..|done].
    + unfold handle_join_session in Hstep.
      destruct code as [|code|]; simplify_eq/=; [by split_and!; [lia..|]| |by split_and!; [lia..|]].
      destruct (sessions s !! Js.toUpperCase code) as [session|] eqn:Hs;
        simplify_eq/=.
      * rewrite (Hupd _ _ _ Hs). by split_and!; [lia..|].
      * by split_and!; [lia..|].
    + unfold handle_file_start in Hstep.
      split_in_session Hstep; simplify_eq/=; [by split_and!; [lia..|]|].
      destruct Hbound as (_ & _ & Hs). rewrite (Hupd _ _ _ Hs).
      by split_and!; [lia..|].
    + unfold handle_file_complete in Hstep.
      split_in_session Hstep; simplify_eq/=; [by split_and!; [lia..|]|].
      destruct Hbound as (_ & _ & Hs).
      destruct (Session.files session0 !! fid) as [file0|]; simplify_eq/=;
        [|by split_and!; [lia..|]].
      rewrite (Hupd _ _ _ Hs). by split_and!; [lia..|].
    + unfold handle_request_file in Hstep.
      split_in_session Hstep; simplify_eq/=; [by split_and!; [lia..|]|].
      destruct (Session.files session0 !! fid) as [file0|];
        [destruct (File.data file0)|]; simplify_eq/=; by split_and!; [lia..|].
    + unfold handle_delete_file in Hstep.
      split_in_session Hstep; simplify_eq/=; [by split_and!; [lia..|]|].
      destruct Hbound as (_ & _ & Hs).
      destruct (Session.files session0 !! fid) as [file0|]; simplify_eq/=;
        [|by split_and!; [lia..|]].
      rewrite (Hupd _ _ _ Hs). by split_and!; [lia..|].
    + simplify_eq/=. by split_and!; [lia..|].
    + simplify_eq/=. by split_and!; [lia..|].
  - unfold handleBinaryMessage in Hstep.
    split_in_session Hstep; simplify_eq/=; [by split_and!; [lia..|]|].
    destruct Hbound as (_ & _ & Hs).
    destruct (Session.files session0 !! frame_fileId data) as [file0|];
      simplify_eq/=; [|by split_and!; [lia..|]].
    rewrite (Hupd _ _ _ Hs). by split_and!; [lia..|].
  - unfold handle_close in Hstep.
    split_in_session Hstep; simplify_eq/=; [by split_and!; [lia..|]|].
    destruct Hbound as (_ & _ & Hs). rewrite (Hupd _ _ _ Hs).
    by split_and!; [lia..|].
  - unfold handle_empty_session_timeout in Hstep.
    destruct (sessions s !! code) as [cur|] eqn:Hcur; simplify_eq/=;
      [|by split_and!; [lia..|]].
    destruct (size (Session.devices cur) =? 0); simplify_eq/=;
      [|by split_and!; [lia..|]].
    rewrite map_size_delete, Hcur. by split_and!; [lia..|].
  - unfold janitor in Hstep. simplify_eq/=.
    assert (size (omap (janitor_session (thirtyMinutesAgo e)) (sessions s))
            ≤ size (sessions s)).
    { rewrite <- !(size_dom (D := gset string)).
      apply subseteq_size, dom_omap_subseteq. }
    by split_and!; [lia..|].
Qed.

Lemma counters_bound_live_sessions_witness :
  size (sessions hub_S1) ≤ totalSessions (stats hub_S1)
  ∧ totalSessions (stats hub_S1) ≤ totalUsers (stats hub_S1)
  ∧ totalSessions (stats hub_S1) ≤ totalSessions (stats hub_S1)
  ∧ totalUsers (stats hub_S1) ≤ totalUsers (stats hub_S1)
  ∧ stats hub_S1
    = if decide (is_Some (sessions hub_S1 !! Js.toUpperCase "zzzzzz"))
      then Stats (S (totalUsers (stats hub_S1))) (totalSessions (stats hub_S1))
      else stats hub_S1.
Proof.
  apply (counters_bound_live_sessions 1 env0
           (on_message devC (join_session (code_string "zzzzzz") None None))
           hub_S1 hub_S1 [(devC, session_not_found)]).
  - by_computation.
  - by_computation.
  - by_computation.
Defined.

(** ** The packets of a download *)

Lemma ceil_div_beyond a b i : 0 < b → S i < Js.ceil_div a b → S i * b < a.
Proof.
  intros Hb Hi.
  destruct (decide (S i * b < a)) as [|Hno]; [done|].
  assert (Js.ceil_div a b ≤ S i) by (apply ceil_div_least; lia). lia.
Qed.

Lemma ceil_div_last a b i : 0 < b → i < Js.ceil_div a b → i * b < a.
Proof.
  intros Hb Hi.
  destruct (decide (i * b < a)) as [|Hno]; [done|].
  assert (Js.ceil_div a b ≤ i) by (apply ceil_div_least; lia). lia.
Qed.

Lemma download_packets_sized_lookup cs id buf i packet :
  0 < cs →
  download_packets_sized cs id buf !! i = Some packet →
  i < Js.ceil_div (length buf) cs
  ∧ packet = header id ++ take (Nat.min cs (length buf - i * cs)) (drop (i * cs) buf)
  ∧ length (drop 36 packet)
    = (if decide (S i < Js.ceil_div (length buf) cs) then cs
       else length buf - i * cs)
  ∧ 0 < length (drop 36 packet) ≤ cs.
Proof.
  intros Hcs Hi. unfold download_packets_sized in Hi.
  rewrite list_lookup_fmap in Hi.
  destruct (seq 0 (Js.ceil_div (length buf) cs) !! i) as [j|] eqn:Hj;
    simplify_eq/=.
  apply lookup_seq in Hj as [-> Hlt]. simpl in *.
  pose proof (ceil_div_last _ _ _ Hcs Hlt) as Hstart.
  pose proof (ceil_div_covers (length buf) cs Hcs) as Hcover.
  assert (Hlen : length (Js.slice (i * cs) (Nat.min (i * cs + cs) (length buf)) buf)
                 = Nat.min cs (length buf - i * cs)).
  { unfold Js.slice. rewrite length_take, length_drop. lia. }
  rewrite drop_app_length' by (by rewrite length_header). rewrite Hlen.
  split_and!; [done| | |lia|lia].
  - f_equal. unfold Js.slice. f_equal. lia.
  - case_decide as Hfull.
    + pose proof (ceil_div_beyond _ _ _ Hcs Hfull). lia.
    + assert (length buf - i * cs ≤ cs) by nia. lia.
Qed.

(** X16. The sizes of the download packets.  Every packet the hub sends
    for a file but the last carries exactly 64 KiB of payload after the 36
    header bytes; the last carries what is left, between 1 byte and 64 KiB:
    the hub never sends a packet with an empty payload.  An empty file is
    sent in no packet at all. *)
Theorem download_packet_sizes id buf i packet :
  download_packets id buf !! i = Some packet →
  i < Js.ceil_div (length buf) chunkSize
  ∧ length packet
    = 36 + (if decide (S i < Js.ceil_div (length buf) chunkSize)
            then chunkSize else length buf - i * chunkSize)
  ∧ 0 < length packet - 36 ≤ chunkSize
  ∧ download_packets id [] = [].
Proof.
  intros Hi.
  destruct (download_packets_sized_lookup chunkSize id buf i packet
              chunkSize_pos Hi) as (Hlt & -> & Hlen & Hpos).
  rewrite drop_app_length' in Hlen, Hpos by (by rewrite length_header).
  rewrite length_app, length_header.
  split_and!; [done| |lia|lia|].
  - by rewrite Hlen.
  - by vm_compute.
Qed.

Lemma download_packet_sizes_witness :
  0 < Js.ceil_div (length hello) chunkSize
  ∧ length (String.list_byte_of_string fileF ++ hello)
    = 36 + (if decide (1 < Js.ceil_div (length hello) chunkSize)
            then chunkSize else length hello - 0 * chunkSize)
  ∧ 0 < length (String.list_byte_of_string fileF ++ hello) - 36 ≤ chunkSize
  ∧ download_packets fileF [] = [].
Proof.
  apply (download_packet_sizes fileF hello 0
           (String.list_byte_of_string fileF ++ hello)).
  by_computation.
Defined.

(** ** Binary frames at the bounds *)

Lemma length_string_of_list_byte (l : list byte) :
  String.length (String.string_of_list_byte l) = length l.
Proof.
  unfold String.string_of_list_byte.
  induction l as [|b l IH]; simpl; [done | by rewrite IH].
Qed.

(** X17. Binary frames at the bounds.  A frame of fewer than 36 bytes is
    read as a shorter id and an empty chunk, so where the stored ids have
    36 characters (as [uuidv4] gives them) it matches no file and is
    dropped without a reply.  A frame of exactly the 36 bytes of a stored
    id is accepted: an empty chunk is appended, [receivedSize] does not
    move, and the progress frame repeats the current count. *)
Theorem binary_frame_bounds s U c session data :
  bound_to s U c session →
  length data ≤ 36 →
  drop 36 data = []
  ∧ String.length (frame_fileId data) = length data
  ∧ (length data < 36 →
     (∀ k, is_Some (Session.files session !! k) → String.length k = 36) →
     handleBinaryMessage U data s = (s, []))
  ∧ (∀ file0,
       Session.files session !! frame_fileId data = Some file0 →
       ∃ s' session' file,
         handleBinaryMessage U data s
         = (s', [(U, upload_progress (frame_fileId data)
                       (File.receivedSize file0) (File.size file0))])
         ∧ sessions s' !! c = Some session'
         ∧ Session.files session' !! frame_fileId data = Some file
         ∧ File.chunks file = File.chunks file0 ++ [[]]
         ∧ File.receivedSize file = File.receivedSize file0).
Proof.
  intros Hb Hlen.
  assert (Hdrop : drop 36 data = []) by (by apply drop_ge).
  assert (Hid : String.length (frame_fileId data) = length data).
  { unfold frame_fileId. rewrite length_string_of_list_byte, length_take. lia. }
  split_and!; [done|done| |].
  - intros Hshort Hids.
    apply (handleBinaryMessage_dropped _ _ _ _ _ Hb).
    destruct (Session.files session !! frame_fileId data) as [file0|] eqn:Hf;
      [|done].
    specialize (Hids (frame_fileId data)). rewrite Hf in Hids.
    rewrite Hids in Hid by (by eexists). lia.
  - intros file0 Hf. eexists _, _, (File.push_chunk [] file0).
    rewrite (handleBinaryMessage_stored _ _ _ _ _ _ Hb Hf), Hdrop.
    split_and!.
    + simpl. by rewrite Z.add_0_r.
    + simpl. apply lookup_insert_eq.
    + simpl. apply lookup_insert_eq.
    + done.
    + simpl. lia.
Qed.

Lemma binary_frame_bounds_witness :
  drop 36 hello = []
  ∧ String.length (frame_fileId hello) = length hello
  ∧ (length hello < 36 →
     (∀ k, is_Some (Session.files (session_of hub_short "AAAAAA") !! k) →
           String.length k = 36) →
     handleBinaryMessage devA hello hub_short = (hub_short, []))
  ∧ (∀ file0,
       Session.files (session_of hub_short "AAAAAA") !! frame_fileId hello
       = Some file0 →
       ∃ s' session' file,
         handleBinaryMessage devA hello hub_short
         = (s', [(devA, upload_progress (frame_fileId hello)
                          (File.receivedSize file0) (File.size file0))])
         ∧ sessions s' !! "AAAAAA" = Some session'
         ∧ Session.files session' !! frame_fileId hello = Some file
         ∧ File.chunks file = File.chunks file0 ++ [[]]
         ∧ File.receivedSize file = File.receivedSize file0).
Proof.
  apply (binary_frame_bounds hub_short devA "AAAAAA"
           (session_of hub_short "AAAAAA") hello).
  - unfold bound_to. split_and!; by_computation.
  - by_computation.
Defined.

(** ** Progress of an upload *)

Lemma running_totals_prefix received payloads :
  running_totals received payloads
  = (λ i, (received + Z.of_nat (length (concat (take (S i) payloads))))%Z)
      <$> seq 0 (length payloads).
Proof.
  revert received. induction payloads as [|p payloads IH]; intros received;
    [done|].
  cbn [running_totals length seq fmap list_fmap]. f_equal.
  - simpl. rewrite ?take_0. simpl. by rewrite ?app_nil_r.
  - rewrite IH, <- fmap_S_seq, <- list_fmap_compose.
    apply list_fmap_ext. intros _ i _. simpl.
    rewrite length_app. lia.
Qed.

Lemma run_upload_frames_progress fuel s U c session fileId file0 chunks :
  bound_to s U c session →
  String.length fileId = 36 →
  Session.files session !! fileId = Some file0 →
  ∃ s1,
    run fuel (upload_frames U fileId chunks) s
    = Some (s1,
            (λ r, (U, upload_progress fileId r (File.size file0)))
              <$> running_totals (File.receivedSize file0) chunks.*2).
Proof.
  intros Hb Hlen. revert s session file0 Hb.
  induction chunks as [|[e payload] chunks IH]; intros s session file0 Hb Hf.
  - by exists s.
  - destruct (frame_fileId_exact fileId payload Hlen) as [Hid Hdrop].
    cbn [upload_frames fmap list_fmap run step fst snd].
    rewrite (handleBinaryMessage_stored _ _ _ _ _ file0 Hb);
      [|by rewrite Hid].
    rewrite Hid, Hdrop. cbn [mbind option_bind].
    set (session_a :=
           Session.set_files
             (<[fileId := File.push_chunk payload file0]> (Session.files session))
             session).
    destruct (IH _ session_a (File.push_chunk payload file0)
                 (bound_to_update _ _ _ _ session_a Hb))
      as (s1 & Hrun).
    { simpl. apply lookup_insert_eq. }
    unfold upload_frames in Hrun. rewrite Hrun. simpl.
    by exists s1.
Qed.

(** X18. Progress frames follow the chunk stream.  While a member uploads
    to a file by binary frames carrying its 36-character id, the hub
    answers each frame with one [upload_progress] to the uploader, in
    order, and the [i]-th reports as received the bytes the file had before
    plus the total length of the first [i] chunks of this stream, against
    the declared size; nobody else is sent anything. *)
Theorem upload_progress_follows_chunks fuel s U c session fileId file0
    (chunks : list (env * list byte)) :
  bound_to s U c session →
  String.length fileId = 36 →
  Session.files session !! fileId = Some file0 →
  ∃ s1,
    run fuel (upload_frames U fileId chunks) s
    = Some (s1,
            (λ i, (U, upload_progress fileId
                        (File.receivedSize file0
                         + Z.of_nat (length (concat (take (S i) chunks.*2))))
                        (File.size file0)))
              <$> seq 0 (length chunks)).
Proof.
  intros Hb Hlen Hf.
  destruct (run_upload_frames_progress fuel s U c session fileId file0 chunks
              Hb Hlen Hf) as (s1 & Hrun).
  exists s1. rewrite Hrun. f_equal. f_equal.
  rewrite running_totals_prefix, <- list_fmap_compose, length_fmap.
  done.
Qed.

Lemma upload_progress_follows_chunks_witness :
  ∃ s1,
    run 1 (upload_frames devA fileF [(env0, hello); (env0, hello_world)]) hub_short
    = Some (s1,
            (λ i, (devA, upload_progress fileF
                           (File.receivedSize file_short
                            + Z.of_nat (length (concat
                                 (take (S i) [(env0, hello); (env0, hello_world)].*2))))
                           (File.size file_short)))
              <$> seq 0 (length [(env0, hello); (env0, hello_world)])).
Proof.
  apply (upload_progress_follows_chunks 1 hub_short devA "AAAAAA"
           (session_of hub_short "AAAAAA") fileF file_short).
  - unfold bound_to. split_and!; by_computation.
  - by_computation.
  - by_computation.
Defined.

(** ** The local address *)

Lemma first_external_find ifaces :
  first_external ifaces = (λ x, address x.2) <$> list_find external_ipv4 ifaces.
Proof.
  induction ifaces as [|i ifaces IH]; [done|].
  cbn [first_external list_find].
  destruct (decide (external_ipv4 i)) as [[Hf Hi]|Hno].
  - rewrite bool_decide_eq_true_2 by done. by rewrite Hi.
  - assert (bool_decide (family i = "IPv4") && negb (internal i) = false) as ->.
    { apply not_true_is_false. intros [H1 H2]%andb_true_iff. apply Hno. split.
      - by apply bool_decide_eq_true_1 in H1.
      - by apply negb_true_iff in H2. }
    rewrite IH. by destruct (list_find external_ipv4 ifaces) as [[? ?]|].
Qed.

(** X19. [getLocalIP] returns the address of the first entry, in the order
    of the interface names and of the entries of each, that is IPv4 and not
    internal; it returns [localhost] exactly when no entry qualifies (or
    when that is the address of the first that does). *)
Theorem getLocalIP_first_external interfaces :
  getLocalIP interfaces
  = match list_find external_ipv4 (interfaces ≫= snd) with
    | Some (_, i) => address i
    | None => "localhost"
    end.
Proof.
  induction interfaces as [|[name ifaces] interfaces IH]; [done|].
  cbn [getLocalIP]. rewrite bind_cons. simpl.
  rewrite first_external_find.
  destruct (list_find external_ipv4 ifaces) as [[k i]|] eqn:Hfind; simpl.
  - by erewrite list_find_app_l.
  - rewrite list_find_app_r by done. rewrite IH.
    by destruct (list_find external_ipv4 (interfaces ≫= snd)) as [[? ?]|].
Qed.

Example getLocalIP_skips_loopback :
  getLocalIP [ ("lo", [Iface "IPv4" true "127.0.0.1"; Iface "IPv6" true "::1"]);
               ("eth0", [Iface "IPv6" false "fe80::1";
                         Iface "IPv4" false "192.168.1.20"]);
               ("wlan0", [Iface "IPv4" false "192.168.1.21"]) ]
  = "192.168.1.20"
  ∧ getLocalIP [ ("lo", [Iface "IPv4" true "127.0.0.1"]) ] = "localhost".
Proof. split; reflexivity. Qed.
